(** * ssh2docker: the per-connection session engine of [client.go]

    A shallow embedding of [NewClient], [HandleRequests] and
    [HandleChannelRequests], and of the teardown guard the three proxy
    goroutines of a started shell share.

    Conventions.
    - Go strings are [string] (a sequence of 8-bit characters), [[]byte] is
      a slice over a backing array of [byte], [byte] arithmetic is done in
      [Z] modulo 256.
    - A run-time panic (index or slice bounds out of range, nil pointer) is
      an outcome of its own: [Panicked].
    - [*ClientConfig] is an address into a heap of records, so that two
      clients holding the same pointer see each other's writes.
    - What the handler does to the outside (channel writes, replies, log
      lines, commands queried and started, goroutines spawned) is appended
      to a trace of events, in program order. *)

From Stdlib Require Import ZArith Lia List String Ascii Strings.Byte Bool.
From stdpp Require Import gmap strings list fin_maps.
Import ListNotations.

Local Open Scope string_scope.
Local Open Scope list_scope.
Local Open Scope Z_scope.

(** ** Bytes and unsigned 8-bit arithmetic *)

Definition byte_val (b : byte) : Z := Z.of_N (Byte.to_N b).

Definition byte_of_Z (z : Z) : byte :=
  match Byte.of_N (Z.to_N (z mod 256)) with
  | Some b => b
  | None => x00
  end.

(** [a + b] on two values of Go type [byte]: computed modulo 2^8. *)
Definition uint8_add (a b : Z) : Z := (a + b) mod 256.

(** ** Go slices of bytes

    A slice is a window of [len] elements over a backing array; [arr] is
    the array from the slice's first element on, so that the capacity is
    [length arr]. Indexing is checked against the length, a two-index
    slice expression against the capacity, [s[lo:]] against the length. *)

Inductive panic :=
| IndexOutOfRange
| SliceBoundsOutOfRange
| NilDereference.

Inductive result (A : Type) :=
| Ok (a : A)
| Panicked (p : panic).
Arguments Ok {A} a.
Arguments Panicked {A} p.

Record slice := Slice { arr : list byte; len : nat }.

Definition cap (s : slice) : nat := length (arr s).

Definition slice_wf (s : slice) : Prop := (len s <= cap s)%nat.

(** [[]byte] holding exactly [l], with no spare capacity. *)
Definition slice_of (l : list byte) : slice := Slice l (length l).

(** The elements of the slice, [s[0], ..., s[len-1]]. *)
Definition elements_of (s : slice) : list byte := firstn (len s) (arr s).

(** [string(s)] *)
Definition string_of_slice (s : slice) : string :=
  string_of_list_byte (elements_of s).

(** [s[i]] *)
Definition index (s : slice) (i : Z) : result byte :=
  if (0 <=? i) && (i <? Z.of_nat (len s)) then
    match nth_error (arr s) (Z.to_nat i) with
    | Some b => Ok b
    | None => Panicked IndexOutOfRange
    end
  else Panicked IndexOutOfRange.

(** [s[lo:hi]] *)
Definition slice_range (s : slice) (lo hi : Z) : result slice :=
  if (0 <=? lo) && (lo <=? hi) && (hi <=? Z.of_nat (cap s)) then
    Ok (Slice (skipn (Z.to_nat lo) (arr s)) (Z.to_nat (hi - lo)))
  else Panicked SliceBoundsOutOfRange.

(** [s[lo:]] *)
Definition slice_from (s : slice) (lo : Z) : result slice :=
  if (0 <=? lo) && (lo <=? Z.of_nat (len s)) then
    Ok (Slice (skipn (Z.to_nat lo) (arr s)) (len s - Z.to_nat lo))
  else Panicked SliceBoundsOutOfRange.

(** ** Strings *)

(** [strings.Replace(s, old, new, -1)] for a one-byte [old]. *)
Fixpoint Replace (s : string) (old : ascii) (new : string) : string :=
  match s with
  | EmptyString => EmptyString
  | String c rest =>
      if Ascii.eqb c old then new +:+ Replace rest old new
      else String c (Replace rest old new)
  end.

(** [strings.Split(s, sep)] for a one-byte [sep]: the pieces of [s] between
    the occurrences of [sep]; always at least one piece. *)
Fixpoint Split_acc (s : string) (sep : ascii) (cur : string) : list string :=
  match s with
  | EmptyString => [cur]
  | String c rest =>
      if Ascii.eqb c sep then cur :: Split_acc rest sep EmptyString
      else Split_acc rest sep (cur +:+ String c EmptyString)
  end.

Definition Split (s : string) (sep : ascii) : list string :=
  Split_acc s sep EmptyString.

(** [strings.Join(l, " ")] *)
Definition Join (l : list string) (sep : string) : string :=
  String.concat sep l.

(** ** The data model of [client.go] *)

Abbreviation loc := nat.

Abbreviation Environment := (gmap string string).

Module ClientConfig.
(** [Command] distinguishes the nil slice ([None]) from an allocated one
    ([Some l], possibly of length zero): line 206 tests it against nil. *)
Record t := Build {
  ImageName : string;
  RemoteUser : string;
  Env : Environment;
  Command : option (list string);
  DockerRunArgs : list string;
  User : string;
  Keys : list string;
  AuthenticationMethod : string;
  AuthenticationComment : string;
  EntryPoint : string;
  AuthenticationAttempts : Z;
  Allowed : bool;
  IsLocal : bool
}.

Definition set_Env (f : Environment -> Environment) (c : t) : t :=
  Build (ImageName c) (RemoteUser c) (f (Env c)) (Command c)
        (DockerRunArgs c) (User c) (Keys c) (AuthenticationMethod c)
        (AuthenticationComment c) (EntryPoint c)
        (AuthenticationAttempts c) (Allowed c) (IsLocal c).

Definition set_IsLocal (b : bool) (c : t) : t :=
  Build (ImageName c) (RemoteUser c) (Env c) (Command c)
        (DockerRunArgs c) (User c) (Keys c) (AuthenticationMethod c)
        (AuthenticationComment c) (EntryPoint c)
        (AuthenticationAttempts c) (Allowed c) b.
End ClientConfig.

Module Server.
(** The fields of [Server] that [client.go] reads or writes.
    [ClientConfigs] is the registry [map[string]*ClientConfig]. *)
Record t := Build {
  LocalUser : string;
  NoJoin : bool;
  DefaultShell : string;
  DockerRunArgs : list string;
  Banner : string;
  ClientConfigs : gmap string loc
}.

Definition set_ClientConfigs (f : gmap string loc -> gmap string loc)
    (s : t) : t :=
  Build (LocalUser s) (NoJoin s) (DefaultShell s) (DockerRunArgs s)
        (Banner s) (f (ClientConfigs s)).
End Server.

(** [ssh.ServerConn] as far as [NewClient] looks at it. *)
Record ServerConn := {
  conn_User : string;
  conn_RemoteAddr : string
}.

(** [Client], without its connection and channel streams: the requests
    are handed to the handlers as lists. [Pty] is the descriptor of the
    terminal [HandleChannel] opened for the session (lines 132-138). *)
Record Client := {
  Idx : Z;
  ChannelIdx : Z;
  ClientID : string;
  Config : loc;
  Pty : nat
}.

(** [ssh.Request] *)
Record Request := {
  ReqType : string;
  WantReply : bool;
  Payload : slice
}.

(** [exec.Cmd]: program, arguments and environment ([None] when the field
    is left nil). Every command the handler starts has its three standard
    streams bound to [c.Tty], with [Setctty] and [Setsid]; this is the same
    for all of them and is not recorded. *)
Record Cmd := {
  cmd_Path : string;
  cmd_Args : list string;
  cmd_Env : option (list string)
}.

Definition Command (name : string) (args : list string) : Cmd :=
  {| cmd_Path := name; cmd_Args := args; cmd_Env := None |}.

Definition with_Env (env : list string) (c : Cmd) : Cmd :=
  {| cmd_Path := cmd_Path c; cmd_Args := cmd_Args c; cmd_Env := Some env |}.

Inductive go_result (A : Type) :=
| GoOk (a : A)
| GoErr (msg : string).
Arguments GoOk {A} a.
Arguments GoErr {A} msg.

Inductive level := LvlDebug | LvlInfo | LvlWarn | LvlError.

(** The three goroutines of lines 244-259. *)
Inductive task := CopyPtyToChannel | CopyChannelToPty | WaitProcess.

(** What the handlers do to the outside. A log line is its level, its
    format string, and those of its arguments that are strings (errors and
    requests printed with [%v] are left out). [ECombinedOutput] and
    [EStart] record the call, whether it succeeds or not; [EGo] is a [go]
    statement of lines 244-259. *)
Inductive event :=
| ELog (lvl : level) (format : string) (args : list string)
| EChanWrite (data : string)
| ESleep (seconds : Z)
| EReply (ok : bool)
| ECombinedOutput (c : Cmd)
| EStart (c : Cmd)
| EGo (t : task)
| ETtyClose.

(** The server with its registry, the configuration records behind the
    [*ClientConfig] pointers, the package-level [clientCounter], the
    geometry of the terminals by descriptor, and the trace so far. *)
Record State := {
  server : Server.t;
  heap : gmap loc ClientConfig.t;
  clientCounter : Z;
  winsize : gmap nat (Z * Z);
  trace : list event
}.

(** ** What lies outside [client.go]

    The standard library's [strings.TrimSpace], the [Environment] methods
    of [pkg/envhelper], and the operating system's answers to
    [cmd.CombinedOutput()] and [cmd.Start()]. The two answers may depend on
    everything that happened before (the trace). *)

Record Externals := {
  TrimSpace : string -> string;
  ApplyDefaults : Environment -> Environment;
  EnvList : Environment -> list string;
  CombinedOutput : list event -> Cmd -> go_result string;
  Start : list event -> Cmd -> go_result unit
}.

(** ** A state, trace and panic monad *)

Definition M (A : Type) : Type := State -> result A * State.

Definition ret {A} (a : A) : M A := fun st => (Ok a, st).

Definition bind {A B} (m : M A) (k : A -> M B) : M B :=
  fun st =>
    match m st with
    | (Ok a, st') => k a st'
    | (Panicked p, st') => (Panicked p, st')
    end.

Notation "x <~ m ;; k" := (bind m (fun x => k))
  (at level 100, m at next level, right associativity).
Notation "m ;;; k" := (bind m (fun _ => k))
  (at level 100, right associativity).

Definition raise {A} (p : panic) : M A := fun st => (Panicked p, st).

Definition lift {A} (r : result A) : M A := fun st => (r, st).

Definition get : M State := fun st => (Ok st, st).

(** The state after the events [evs] happened. *)
Definition record_events (evs : list event) (st : State) : State :=
  {| server := server st; heap := heap st;
     clientCounter := clientCounter st; winsize := winsize st;
     trace := trace st ++ evs |}.

Definition emit (e : event) : M unit :=
  fun st => (Ok tt, record_events [e] st).

Definition logf (lvl : level) (format : string) (args : list string)
    : M unit :=
  emit (ELog lvl format args).

Definition set_server (f : Server.t -> Server.t) : M unit :=
  fun st =>
    (Ok tt, {| server := f (server st); heap := heap st;
               clientCounter := clientCounter st; winsize := winsize st;
               trace := trace st |}).

Definition set_heap (f : gmap loc ClientConfig.t -> gmap loc ClientConfig.t)
    : M unit :=
  fun st =>
    (Ok tt, {| server := server st; heap := f (heap st);
               clientCounter := clientCounter st; winsize := winsize st;
               trace := trace st |}).

Definition set_clientCounter (f : Z -> Z) : M unit :=
  fun st =>
    (Ok tt, {| server := server st; heap := heap st;
               clientCounter := f (clientCounter st); winsize := winsize st;
               trace := trace st |}).

Definition set_winsize (f : gmap nat (Z * Z) -> gmap nat (Z * Z)) : M unit :=
  fun st =>
    (Ok tt, {| server := server st; heap := heap st;
               clientCounter := clientCounter st; winsize := f (winsize st);
               trace := trace st |}).

(** [*p] for [p : *ClientConfig]; an address nothing was allocated at
    stands for the nil pointer. *)
Definition deref (p : loc) : M ClientConfig.t :=
  fun st =>
    match heap st !! p with
    | Some c => (Ok c, st)
    | None => (Panicked NilDereference, st)
    end.

(** [&ClientConfig{...}]: a fresh address. *)
Definition fresh (h : gmap loc ClientConfig.t) : loc :=
  S (max_list (elements (dom h))).

Definition alloc (c : ClientConfig.t) : M loc :=
  fun st =>
    let p := fresh (heap st) in
    (Ok p, {| server := server st; heap := <[p := c]> (heap st);
              clientCounter := clientCounter st; winsize := winsize st;
              trace := trace st |}).

(** [p.Env[key] = value] *)
Definition set_env (p : loc) (key value : string) : M unit :=
  c <~ deref p ;;
  set_heap (insert p (ClientConfig.set_Env (insert key value) c)).

(** ** [pkg/ttyhelper] *)

Definition be32 (b0 b1 b2 b3 : byte) : Z :=
  Z.lor (Z.shiftl (byte_val b0) 24)
    (Z.lor (Z.shiftl (byte_val b1) 16)
       (Z.lor (Z.shiftl (byte_val b2) 8) (byte_val b3))).

(** Modelled from the spec: [ttyhelper.ParseDims] is not among the sources.
    The packed geometry is columns, rows, pixel width, pixel height, each a
    4-byte big-endian unsigned integer; the first two are returned. On a
    slice too short to hold them the byte reads go out of range. *)
Definition ParseDims (b : slice) : result (Z * Z) :=
  match index b 0, index b 1, index b 2, index b 3,
        index b 4, index b 5, index b 6, index b 7 with
  | Ok b0, Ok b1, Ok b2, Ok b3, Ok b4, Ok b5, Ok b6, Ok b7 =>
      Ok (be32 b0 b1 b2 b3, be32 b4 b5 b6 b7)
  | _, _, _, _, _, _, _, _ => Panicked IndexOutOfRange
  end.

(** Modelled from the spec: [ttyhelper.SetWinsize] is not among the sources.
    It resizes the terminal behind the descriptor to (columns, rows). *)
Definition SetWinsize (fd : nat) (w h : Z) : M unit :=
  set_winsize (insert fd (w, h)).

Definition LF : string := String (ascii_of_nat 10) EmptyString.
Definition CR : string := String (ascii_of_nat 13) EmptyString.

(** [switch] arms either fall out of the switch with the value of [ok]
    (lines 294-299 then send the reply), or [continue] with the next
    request, skipping the reply. *)
Inductive flow :=
| Next (ok : bool)
| Skip.

Section WithExternals.

Variable X : Externals.

(** *** [NewClient] (lines 52-90) *)

(** The record of lines 63-71; the fields it does not list have their zero
    values. [make([]string, 0)] is an allocated slice of length zero. *)
Definition default_config (conn : ServerConn) : ClientConfig.t :=
  {| ClientConfig.ImageName := Replace (conn_User conn) "_"%char "/";
     ClientConfig.RemoteUser := "anonymous";
     ClientConfig.Env := ∅;
     ClientConfig.Command := Some [];
     ClientConfig.DockerRunArgs := [];
     ClientConfig.User := "";
     ClientConfig.Keys := [];
     ClientConfig.AuthenticationMethod := "noauth";
     ClientConfig.AuthenticationComment := "";
     ClientConfig.EntryPoint := "";
     ClientConfig.AuthenticationAttempts := 0;
     ClientConfig.Allowed := false;
     ClientConfig.IsLocal := false |}.

(** [conn.RemoteAddr().String()] is read twice (lines 55 and 82) and is
    the same both times. A registry entry that holds no record stands for
    a nil pointer. [Pty] is left unset. *)
Definition NewClient (conn : ServerConn) : M Client :=
  st <~ get ;;
  let idx := clientCounter st in
  let id := conn_RemoteAddr conn in
  p <~ alloc (default_config conn) ;;
  (if negb (String.eqb (Server.LocalUser (server st)) "") then
     cfg <~ deref p ;;
     set_heap (insert p
       (ClientConfig.set_IsLocal
          (String.eqb (ClientConfig.ImageName cfg)
                      (Server.LocalUser (server st))) cfg))
   else ret tt) ;;;
  (match Server.ClientConfigs (server st) !! id with
   | None => set_server (Server.set_ClientConfigs (insert id p))
   | Some _ => ret tt
   end) ;;;
  st1 <~ get ;;
  match Server.ClientConfigs (server st1) !! id with
  | None => raise NilDereference
  | Some q =>
      cfg <~ deref q ;;
      set_heap (insert q (ClientConfig.set_Env (ApplyDefaults X) cfg)) ;;;
      set_clientCounter (fun n => n + 1) ;;;
      match Split id ":"%char with
      | host :: port :: _ =>
          emit (ELog LvlInfo "Accepted %s for %s from %s port %s ssh2: %s"
                  [ClientConfig.AuthenticationMethod cfg; conn_User conn;
                   host; port; ClientConfig.AuthenticationComment cfg]) ;;;
          ret {| Idx := idx; ChannelIdx := 0; ClientID := id;
                 Config := q; Pty := 0%nat |}
      | _ => raise IndexOutOfRange
      end
  end.

(** *** [HandleRequests] (lines 93-103): the goroutine's loop over the
    connection-level requests. *)

Fixpoint HandleRequests (reqs : list Request) : M unit :=
  match reqs with
  | [] => ret tt
  | req :: rest =>
      emit (ELog LvlDebug "HandleRequest: %v" []) ;;;
      (if WantReply req then emit (EReply false) else ret tt) ;;;
      HandleRequests rest
  end.

(** *** [HandleChannelRequests] (lines 146-302) *)

(** The query of line 169. Commands are recorded by program name and the
    arguments handed to [exec.Command]. *)
Definition query_command (cfg : ClientConfig.t) : Cmd :=
  with_Env (EnvList X (ClientConfig.Env cfg))
    (Command "docker"
       ["ps"; "--filter=label=ssh2docker";
        "--filter=label=image=" +:+ ClientConfig.ImageName cfg;
        "--filter=label=user=" +:+ ClientConfig.RemoteUser cfg;
        "--quiet"; "--no-trunc"]).

(** Lines 182-186: attaching to an existing container. *)
Definition join_args (srv : Server.t) (cfg : ClientConfig.t)
    (existingContainer : string) : list string :=
  let shell := Server.DefaultShell srv in
  let shell :=
    if negb (String.eqb (ClientConfig.EntryPoint cfg) "")
    then ClientConfig.EntryPoint cfg else shell in
  ["exec"; "-it"; existingContainer; shell].

(** Lines 192-210: creating and attaching to a new container. *)
Definition create_args (srv : Server.t) (cfg : ClientConfig.t)
    : list string :=
  let args := ["run"] in
  let args :=
    if (0 <? length (ClientConfig.DockerRunArgs cfg))%nat
    then args ++ ClientConfig.DockerRunArgs cfg
    else args ++ Server.DockerRunArgs srv in
  let args :=
    args ++ ["--label=ssh2docker";
             "--label=user=" +:+ ClientConfig.RemoteUser cfg;
             "--label=image=" +:+ ClientConfig.ImageName cfg] in
  let args :=
    if negb (String.eqb (ClientConfig.User cfg) "")
    then args ++ ["-u"; ClientConfig.User cfg] else args in
  let args :=
    if negb (String.eqb (ClientConfig.EntryPoint cfg) "")
    then args ++ ["--entrypoint"; ClientConfig.EntryPoint cfg] else args in
  let args := args ++ [ClientConfig.ImageName cfg] in
  match ClientConfig.Command cfg with
  | Some command => args ++ command
  | None => args ++ [Server.DefaultShell srv]
  end.

(** Lines 160-215: the command to start, or [None] when the query failed
    and the loop goes on to the next request (line 174). *)
Definition launch_command (c : Client) : M (option Cmd) :=
  cfg <~ deref (Config c) ;;
  if ClientConfig.IsLocal cfg then ret (Some (Command "/bin/bash" []))
  else
    st <~ get ;;
    let srv := server st in
    existing <~
      (if negb (Server.NoJoin srv) then
         let q := query_command cfg in
         emit (ECombinedOutput q) ;;;
         match CombinedOutput X (trace st) q with
         | GoErr _ =>
             logf LvlWarn "docker ps ... failed: %v" [] ;;; ret None
         | GoOk buf => ret (Some (TrimSpace X buf))
         end
       else ret (Some "")) ;;
    match existing with
    | None => ret None
    | Some existingContainer =>
        let args :=
          if negb (String.eqb existingContainer "")
          then join_args srv cfg existingContainer
          else create_args srv cfg in
        logf LvlDebug "Executing 'docker %s'" [Join args " "] ;;;
        ret (Some (with_Env (EnvList X (ClientConfig.Env cfg))
                     (Command "docker" args)))
    end.

(** Lines 217-222 *)
Definition write_banner : M unit :=
  st <~ get ;;
  if negb (String.eqb (Server.Banner (server st)) "") then
    let banner := Server.Banner (server st) in
    let banner := Replace banner (ascii_of_nat 13) "" in
    let banner := Replace banner (ascii_of_nat 10) (LF +:+ CR) in
    emit (EChanWrite (banner +:+ LF +:+ CR))
  else ret tt.

Definition exec_warning : string :=
  "⚠️  ssh2docker: exec is not yet implemented. https://github.com/moul/ssh2docker/issues/51.".

Definition handle_shell (c : Client) (req : Request) : M flow :=
  logf LvlDebug "HandleChannelRequests.req shell" [] ;;;
  if negb (len (Payload req) =? 0)%nat then ret (Next false)
  else
    ocmd <~ launch_command c ;;
    match ocmd with
    | None => ret Skip
    | Some cmd =>
        write_banner ;;;
        st <~ get ;;
        emit (EStart cmd) ;;;
        match Start X (trace st) cmd with
        | GoErr _ => logf LvlWarn "cmd.Start failed: %v" [] ;;; ret Skip
        | GoOk _ =>
            emit (EGo CopyPtyToChannel) ;;;
            emit (EGo CopyChannelToPty) ;;;
            emit (EGo WaitProcess) ;;;
            ret (Next true)
        end
    end.

Definition handle_exec (c : Client) (req : Request) : M flow :=
  let command := string_of_slice (Payload req) in
  logf LvlDebug "HandleChannelRequests.req exec: %q" [command] ;;;
  emit (EChanWrite (exec_warning +:+ LF)) ;;;
  emit (ESleep 3) ;;;
  ret (Next false).

Definition handle_pty_req (c : Client) (req : Request) : M flow :=
  termLen <~ lift (index (Payload req) 3) ;;
  let termLen := byte_val termLen in
  cfg <~ deref (Config c) ;;
  term <~ lift (slice_range (Payload req) 4 (uint8_add termLen 4)) ;;
  set_heap (insert (Config c)
    (ClientConfig.set_Env (insert "TERM" (string_of_slice term)) cfg)) ;;;
  dims <~ lift (slice_from (Payload req) (uint8_add termLen 4)) ;;
  wh <~ lift (ParseDims dims) ;;
  SetWinsize (Pty c) (fst wh) (snd wh) ;;;
  logf LvlDebug "HandleChannelRequests.req pty-req: TERM=%q w=%q h=%q"
    [string_of_slice term] ;;;
  ret (Next true).

Definition handle_window_change (c : Client) (req : Request) : M flow :=
  wh <~ lift (ParseDims (Payload req)) ;;
  SetWinsize (Pty c) (fst wh) (snd wh) ;;;
  ret Skip.

Definition handle_env (c : Client) (req : Request) : M flow :=
  keyLen <~ lift (index (Payload req) 3) ;;
  let keyLen := byte_val keyLen in
  key <~ lift (slice_range (Payload req) 4 (uint8_add keyLen 4)) ;;
  let key := string_of_slice key in
  valueLen <~ lift (index (Payload req) (uint8_add keyLen 7)) ;;
  let valueLen := byte_val valueLen in
  value <~ lift (slice_range (Payload req) (uint8_add keyLen 8)
                   (uint8_add (uint8_add keyLen 8) valueLen)) ;;
  let value := string_of_slice value in
  logf LvlDebug "HandleChannelRequets.req 'env': %s=%q" [key; value] ;;;
  set_env (Config c) key value ;;;
  ret (Next false).

(** The [switch] of lines 152-292. *)
Definition dispatch (c : Client) (req : Request) : M flow :=
  if String.eqb (ReqType req) "shell" then handle_shell c req
  else if String.eqb (ReqType req) "exec" then handle_exec c req
  else if String.eqb (ReqType req) "pty-req" then handle_pty_req c req
  else if String.eqb (ReqType req) "window-change"
    then handle_window_change c req
  else if String.eqb (ReqType req) "env" then handle_env c req
  else
    logf LvlDebug "Unhandled request type: %q: %v" [ReqType req] ;;;
    ret (Next false).

(** One iteration of the loop of line 150. *)
Definition handle_request (c : Client) (req : Request) : M unit :=
  f <~ dispatch c req ;;
  match f with
  | Skip => ret tt
  | Next ok =>
      if WantReply req then
        (if negb ok
         then logf LvlDebug "Declining %s request..." [ReqType req]
         else ret tt) ;;;
        emit (EReply ok)
      else ret tt
  end.

Fixpoint serve (c : Client) (reqs : list Request) : M unit :=
  match reqs with
  | [] => ret tt
  | req :: rest => handle_request c req ;;; serve c rest
  end.

(** The goroutine of lines 147-301: the loop, and the deferred
    [c.Tty.Close()], which runs when the loop ends and when it panics. *)
Definition HandleChannelRequests (c : Client) (reqs : list Request)
    : M unit :=
  fun st =>
    let '(r, st') := serve c reqs st in
    (r, snd (emit ETtyClose st')).

End WithExternals.

(** ** Reading a trace *)

(** The replies sent, in order. *)
Fixpoint replies (evs : list event) : list bool :=
  match evs with
  | [] => []
  | EReply ok :: rest => ok :: replies rest
  | _ :: rest => replies rest
  end.

(** The commands whose start was attempted, in order. *)
Fixpoint started (evs : list event) : list Cmd :=
  match evs with
  | [] => []
  | EStart c :: rest => c :: started rest
  | _ :: rest => started rest
  end.

(** Everything but the trace: registry, configuration records, client
    counter and terminal geometry. *)
Definition same_store (st st' : State) : Prop :=
  server st' = server st /\ heap st' = heap st /\
  clientCounter st' = clientCounter st /\ winsize st' = winsize st.


(** ** A concrete world, for examples *)

Module Fixture.

Definition is_space (c : ascii) : bool :=
  let n := nat_of_ascii c in
  ((9 <=? n) && (n <=? 13) || (n =? 32))%nat.

Fixpoint trim_left (s : string) : string :=
  match s with
  | String c rest => if is_space c then trim_left rest else s
  | EmptyString => EmptyString
  end.

Definition rev_string (s : string) : string :=
  string_of_list_ascii (rev (list_ascii_of_string s)).

(** [strings.TrimSpace] on ASCII text. *)
Definition trim (s : string) : string :=
  rev_string (trim_left (rev_string (trim_left s))).

Definition env_list (e : Environment) : list string :=
  map (fun kv => fst kv +:+ "=" +:+ snd kv) (map_to_list e).

Definition world (ps : go_result string) (start : go_result unit)
    : Externals :=
  {| TrimSpace := trim;
     ApplyDefaults := fun e => e;
     EnvList := env_list;
     CombinedOutput := fun _ _ => ps;
     Start := fun _ _ => start |}.

Definition srv : Server.t :=
  {| Server.LocalUser := "";
     Server.NoJoin := false;
     Server.DefaultShell := "/bin/sh";
     Server.DockerRunArgs := ["-it"; "--rm"];
     Server.Banner := "";
     Server.ClientConfigs := ∅ |}.

Definition st0 : State :=
  {| server := srv; heap := ∅; clientCounter := 0; winsize := ∅;
     trace := [] |}.

Definition conn : ServerConn :=
  {| conn_User := "alpine_test"; conn_RemoteAddr := "10.0.0.7:50122" |}.

Definition bytes (l : list Z) : list byte := map byte_of_Z l.

Definition text (s : string) : list byte := list_byte_of_string s.

Definition request (ty : string) (want : bool) (payload : list byte)
    : Request :=
  {| ReqType := ty; WantReply := want; Payload := slice_of payload |}.

(** A connection is accepted into the empty registry and the requests
    [reqs] arrive on one session channel of it. *)
Definition session (X : Externals) (reqs : list Request)
    : result unit * State :=
  match NewClient X conn st0 with
  | (Ok c, st) => HandleChannelRequests X c reqs st
  | (Panicked p, st) => (Panicked p, st)
  end.

(** The session's configuration record afterwards. *)
Definition config_after (run : result unit * State)
    : option ClientConfig.t :=
  heap (snd run) !! 1%nat.

(** No container is running, and commands start. *)
Definition quiet : Externals := world (GoOk "") (GoOk tt).

(** One container is running, and commands start. *)
Definition busy : Externals := world (GoOk ("f3a9c0ffee" +:+ LF)) (GoOk tt).

(** The client and the state after the connection was accepted. *)
Definition client : Client :=
  {| Idx := 0; ChannelIdx := 0; ClientID := "10.0.0.7:50122";
     Config := 1%nat; Pty := 0%nat |}.

Definition accepted : State := snd (NewClient quiet conn st0).

(** A second connection from the same address, asking for another image. *)
Definition conn2 : ServerConn :=
  {| conn_User := "debian"; conn_RemoteAddr := "10.0.0.7:50122" |}.

Definition shell : Request := request "shell" true [].

End Fixture.

(** The configuration the first construction for an identity registers. *)
Definition seeded_config (X : Externals) (srv : Server.t) (conn : ServerConn)
    : ClientConfig.t :=
  {| ClientConfig.ImageName := Replace (conn_User conn) "_"%char "/";
     ClientConfig.RemoteUser := "anonymous";
     ClientConfig.Env := ApplyDefaults X ∅;
     ClientConfig.Command := Some [];
     ClientConfig.DockerRunArgs := [];
     ClientConfig.User := "";
     ClientConfig.Keys := [];
     ClientConfig.AuthenticationMethod := "noauth";
     ClientConfig.AuthenticationComment := "";
     ClientConfig.EntryPoint := "";
     ClientConfig.AuthenticationAttempts := 0;
     ClientConfig.Allowed := false;
     ClientConfig.IsLocal :=
       if String.eqb (Server.LocalUser srv) "" then false
       else String.eqb (Replace (conn_User conn) "_"%char "/")
                       (Server.LocalUser srv) |}.

(** ** Teardown: the three goroutines and their [sync.Once] (lines 238-259)

    Each goroutine waits for its own completion event ([io.Copy] returning,
    or [cmd.Wait] returning) and then calls [once.Do(close)], where [close]
    closes the channel and logs the disconnect. [sync.Once.Do] is followed
    step by step: the fast-path load of [done], the mutex, the second load
    of [done] under the mutex, the call of [f], and the two deferred calls
    (store [done], unlock). The goroutines interleave at every step. *)

Module Teardown.

Inductive pc :=
| Working     (* inside io.Copy or cmd.Wait *)
| AtDo        (* calling once.Do: about to load done *)
| Locking     (* in doSlow: waiting for the mutex *)
| Locked      (* holding the mutex: about to load done again *)
| Closing     (* in close: about to call channel.Close() *)
| Logging     (* in close: about to log the disconnect *)
| Storing     (* close returned: deferred done.Store(1) *)
| Unlocking   (* deferred m.Unlock() *)
| Finished.

Inductive tevent :=
| ChannelClose
| LogDisconnect
| LogWaitFailed.

Record state := {
  pcs : task -> pc;
  done : bool;
  mutex : option task;
  log : list tevent
}.

Definition task_eqb (a b : task) : bool :=
  match a, b with
  | CopyPtyToChannel, CopyPtyToChannel => true
  | CopyChannelToPty, CopyChannelToPty => true
  | WaitProcess, WaitProcess => true
  | _, _ => false
  end.

Definition set_pc (t : task) (v : pc) (f : task -> pc) : task -> pc :=
  fun t' => if task_eqb t' t then v else f t'.

(** Right after the three [go] statements. *)
Definition init : state :=
  {| pcs := fun _ => Working; done := false; mutex := None; log := [] |}.

(** The completion event of goroutine [t]; [failed] says whether the
    call returned an error, which only the third goroutine looks at
    (lines 255-257). *)
Definition complete (t : task) (failed : bool) (s : state) : option state :=
  match pcs s t with
  | Working =>
      Some {| pcs := set_pc t AtDo (pcs s); done := done s;
              mutex := mutex s;
              log := log s ++
                     match t with
                     | WaitProcess =>
                         if failed then [LogWaitFailed] else []
                     | _ => []
                     end |}
  | _ => None
  end.

(** One step of goroutine [t] inside [once.Do(close)]; [None] when it has
    no step to take (not there yet, finished, or blocked on the mutex). *)
Definition advance (t : task) (s : state) : option state :=
  match pcs s t with
  | Working | Finished => None
  | AtDo =>
      Some {| pcs := set_pc t (if done s then Finished else Locking) (pcs s);
              done := done s; mutex := mutex s; log := log s |}
  | Locking =>
      match mutex s with
      | None =>
          Some {| pcs := set_pc t Locked (pcs s); done := done s;
                  mutex := Some t; log := log s |}
      | Some _ => None
      end
  | Locked =>
      Some {| pcs := set_pc t (if done s then Unlocking else Closing) (pcs s);
              done := done s; mutex := mutex s; log := log s |}
  | Closing =>
      Some {| pcs := set_pc t Logging (pcs s); done := done s;
              mutex := mutex s; log := log s ++ [ChannelClose] |}
  | Logging =>
      Some {| pcs := set_pc t Storing (pcs s); done := done s;
              mutex := mutex s; log := log s ++ [LogDisconnect] |}
  | Storing =>
      Some {| pcs := set_pc t Unlocking (pcs s); done := true;
              mutex := mutex s; log := log s |}
  | Unlocking =>
      Some {| pcs := set_pc t Finished (pcs s); done := done s;
              mutex := None; log := log s |}
  end.

Inductive step : state -> state -> Prop :=
| step_complete (t : task) (failed : bool) (s s' : state) :
    complete t failed s = Some s' -> step s s'
| step_advance (t : task) (s s' : state) :
    advance t s = Some s' -> step s s'.

Inductive reachable : state -> Prop :=
| reachable_init : reachable init
| reachable_step (s s' : state) :
    reachable s -> step s s' -> reachable s'.

(** What [close] did so far: the channel closes and disconnect lines of
    the log, in order. *)
Definition is_teardown (e : tevent) : bool :=
  match e with
  | LogWaitFailed => false
  | _ => true
  end.

Definition teardown_events (s : state) : list tevent :=
  List.filter is_teardown (log s).

(** Steps left for a goroutine, at most. *)
Definition rank (p : pc) : nat :=
  match p with
  | Working => 8 | AtDo => 7 | Locking => 6 | Locked => 5 | Closing => 4
  | Logging => 3 | Storing => 2 | Unlocking => 1 | Finished => 0
  end.

Definition measure (s : state) : nat :=
  (rank (pcs s CopyPtyToChannel) + rank (pcs s CopyChannelToPty)
   + rank (pcs s WaitProcess))%nat.

(** Whether a goroutine at this point holds the mutex. *)
Definition holds (p : pc) : bool :=
  match p with
  | Locked | Closing | Logging | Storing | Unlocking => true
  | _ => false
  end.

(** Whether a goroutine at this point is inside [close]. *)
Definition in_close (p : pc) : bool :=
  match p with
  | Closing | Logging | Storing => true
  | _ => false
  end.

(** What [close] has done when the mutex holder is at this point and
    [done] is not stored yet. *)
Definition done_so_far (p : pc) : list tevent :=
  match p with
  | Logging => [ChannelClose]
  | Storing => [ChannelClose; LogDisconnect]
  | _ => []
  end.

Record invariant (s : state) : Prop := {
  inv_mutex : forall t, mutex s = Some t <-> holds (pcs s t) = true;
  inv_after : forall t, pcs s t = Unlocking \/ pcs s t = Finished ->
                        done s = true;
  inv_close : forall t, in_close (pcs s t) = true -> done s = false;
  inv_log : teardown_events s =
              if done s then [ChannelClose; LogDisconnect]
              else match mutex s with
                   | Some t => done_so_far (pcs s t)
                   | None => []
                   end
}.

(** Schedules: a run is a list of moves, each the completion event of a
    goroutine or one of its steps inside [once.Do]. *)
Inductive action :=
| Complete (t : task) (failed : bool)
| Advance (t : task).

Definition perform (a : action) (s : state) : option state :=
  match a with
  | Complete t failed => complete t failed s
  | Advance t => advance t s
  end.

Fixpoint run (schedule : list action) (s : state) : option state :=
  match schedule with
  | [] => Some s
  | a :: rest =>
      match perform a s with
      | Some s' => run rest s'
      | None => None
      end
  end.

(** Two completions race: the terminal-to-channel copy ends and the
    process exits with an error before either goroutine has entered
    [once.Do]; both find [done] unset and go for the mutex; the waiter gets
    it first. The channel-to-terminal copy is still running at the end. *)
Definition race : list action :=
  [Complete CopyPtyToChannel false; Complete WaitProcess true;
   Advance CopyPtyToChannel; Advance WaitProcess;
   Advance WaitProcess; Advance WaitProcess; Advance WaitProcess;
   Advance WaitProcess; Advance WaitProcess; Advance WaitProcess;
   Advance CopyPtyToChannel; Advance CopyPtyToChannel;
   Advance CopyPtyToChannel].

End Teardown.


(** ** Session channels: [HandleChannel] and [HandleChannels] (lines 105-143)

    A new channel is its type and what [Accept()] answers: the requests
    that arrive on the channel, or an error. [newChannel.Reject] acts on
    the one channel and is recorded in the outcome of that channel.
    [HandleChannelRequests] starts a goroutine; here the requests of a
    channel are handled to the end before the next channel is looked at,
    which is one of the orders the goroutines can run in. *)

Record NewChannel := {
  ChannelType : string;
  Accept : go_result (list Request)
}.

Inductive channel_outcome :=
| ChannelRejected        (* Reject(UnknownChannelType, ...), returns nil *)
| AcceptFailed (err : string)   (* returns err *)
| PtyFailed              (* accepted, pty.Open failed, returns nil *)
| ChannelServed.         (* accepted, requests handed to the handler *)

(** The [error] that [HandleChannel] returns. *)
Definition returned_error (o : channel_outcome) : option string :=
  match o with
  | AcceptFailed err => Some err
  | _ => None
  end.

Definition set_ChannelIdx (n : Z) (c : Client) : Client :=
  {| Idx := Idx c; ChannelIdx := n; ClientID := ClientID c;
     Config := Config c; Pty := Pty c |}.

Definition set_Pty (fd : nat) (c : Client) : Client :=
  {| Idx := Idx c; ChannelIdx := ChannelIdx c; ClientID := ClientID c;
     Config := Config c; Pty := fd |}.

Section WithTerminals.

Variable X : Externals.

(** The operating system's answer to [pty.Open()]: the descriptor of the
    controlling side, or an error. *)
Variable OpenPty : list event -> go_result nat.

(** [c] is a pointer in the source: the client comes back with what the
    call wrote into it. *)
Definition HandleChannel (c : Client) (newChannel : NewChannel)
    : M (Client * channel_outcome) :=
  if negb (String.eqb (ChannelType newChannel) "session") then
    logf LvlDebug "Unknown channel type: %s" [ChannelType newChannel] ;;;
    ret (c, ChannelRejected)
  else
    match Accept newChannel with
    | GoErr err =>
        logf LvlError "newChannel.Accept failed: %v" [] ;;;
        ret (c, AcceptFailed err)
    | GoOk requests =>
        let c := set_ChannelIdx (ChannelIdx c + 1) c in
        logf LvlDebug "HandleChannel.channel (client=%d channel=%d): %v"
          [] ;;;
        logf LvlDebug "Creating pty..." [] ;;;
        st <~ get ;;
        match OpenPty (trace st) with
        | GoErr _ =>
            logf LvlError "pty.Open failed: %v" [] ;;;
            ret (c, PtyFailed)
        | GoOk f =>
            let c := set_Pty f c in
            HandleChannelRequests X c requests ;;;
            ret (c, ChannelServed)
        end
    end.

(** The loop of lines 107-111; the outcomes of the channels it looked at,
    in order, and the error it returns. *)
Fixpoint HandleChannels (c : Client) (chans : list NewChannel)
    : M (Client * list channel_outcome * option string) :=
  match chans with
  | [] => ret (c, [], None)
  | newChannel :: rest =>
      r <~ HandleChannel c newChannel ;;
      match returned_error (snd r) with
      | Some err => ret (fst r, [snd r], Some err)
      | None =>
          r' <~ HandleChannels (fst r) rest ;;
          ret (fst (fst r'), snd r :: snd (fst r'), snd r')
      end
  end.

End WithTerminals.


(** The text lines 218-221 write for a banner. *)
Definition banner_text (banner : string) : string :=
  Replace (Replace banner (ascii_of_nat 13) "") (ascii_of_nat 10) (LF +:+ CR)
  +:+ LF +:+ CR.

(** The five request types the [switch] of line 152 knows. *)
Definition known_type (ty : string) : bool :=
  String.eqb ty "shell" || String.eqb ty "exec" || String.eqb ty "pty-req"
  || String.eqb ty "window-change" || String.eqb ty "env".

(** The commands queried with [CombinedOutput], and the goroutines
    spawned, in order. *)
Fixpoint queried (evs : list event) : list Cmd :=
  match evs with
  | [] => []
  | ECombinedOutput c :: rest => c :: queried rest
  | _ :: rest => queried rest
  end.

Fixpoint spawned (evs : list event) : list task :=
  match evs with
  | [] => []
  | EGo t :: rest => t :: spawned rest
  | _ :: rest => spawned rest
  end.

(** ** More concrete sessions *)

Module Scenario.

(** A second session channel on the accepted connection, a channel of
    another type, and one whose accept fails. *)
Definition session_channel (reqs : list Request) : NewChannel :=
  {| ChannelType := "session"; Accept := GoOk reqs |}.

Definition forwarding_channel : NewChannel :=
  {| ChannelType := "direct-tcpip"; Accept := GoOk [] |}.

Definition broken_channel : NewChannel :=
  {| ChannelType := "session"; Accept := GoErr "EOF" |}.

Definition open_pty (fd : nat) : list event -> go_result nat :=
  fun _ => GoOk fd.


(** [LANG=C] and [LANG=fr] as [env] payloads, [xterm] at 80x24 as a
    [pty-req] payload. *)
Definition env_payload (key value : string) : list byte :=
  Fixture.bytes [0; 0; 0; Z.of_nat (String.length key)] ++ Fixture.text key ++
  Fixture.bytes [0; 0; 0; Z.of_nat (String.length value)] ++
  Fixture.text value.

Definition pty_payload (term : string) (cols rows : Z) : list byte :=
  Fixture.bytes [0; 0; 0; Z.of_nat (String.length term)] ++ Fixture.text term ++
  Fixture.bytes [0; 0; 0; cols; 0; 0; 0; rows; 0; 0; 0; 0; 0; 0; 0; 0].

(** The seeded record of the accepted connection. *)
Definition record : ClientConfig.t :=
  seeded_config Fixture.quiet Fixture.srv Fixture.conn.

(** A world in which the query fails, and one in which no command starts. *)
Definition no_docker : Externals :=
  Fixture.world (GoErr "cannot connect to the docker daemon") (GoOk tt).

Definition no_start : Externals :=
  Fixture.world (GoOk "") (GoErr "executable file not found").

(** A server that runs the image [alpine/test] natively, and one with
    reuse disabled; the states after the connection was accepted there. *)
Definition local_srv : Server.t :=
  {| Server.LocalUser := "alpine/test";
     Server.NoJoin := false;
     Server.DefaultShell := "/bin/sh";
     Server.DockerRunArgs := ["-it"; "--rm"];
     Server.Banner := "";
     Server.ClientConfigs := ∅ |}.

Definition nojoin_srv : Server.t :=
  {| Server.LocalUser := "";
     Server.NoJoin := true;
     Server.DefaultShell := "/bin/sh";
     Server.DockerRunArgs := ["-it"; "--rm"];
     Server.Banner := "";
     Server.ClientConfigs := ∅ |}.

Definition start_with (srv : Server.t) : State :=
  {| server := srv; heap := ∅; clientCounter := 0; winsize := ∅;
     trace := [] |}.

Definition accepted_by (srv : Server.t) : State :=
  snd (NewClient Fixture.quiet Fixture.conn (start_with srv)).

(** The events a run added to the trace of the state it started in. *)
Definition new_events {A : Type} (st : State) (run : result A * State)
    : list event :=
  skipn (length (trace st)) (trace (snd run)).

End Scenario.

(** ** Proof support *)

Lemma same_store_refl (st : State) : same_store st st.
Proof. repeat split. Qed.

Lemma replies_app (l1 l2 : list event) :
  replies (l1 ++ l2) = replies l1 ++ replies l2.
Proof.
  induction l1 as [|e l1 IH]; [reflexivity|].
  destruct e; simpl; rewrite ?IH; reflexivity.
Qed.

(** Unfolds the monad's operations and the request handlers. *)
Ltac unfold_monad :=
  unfold logf, SetWinsize, set_env, set_winsize, set_heap, set_server,
    set_clientCounter, emit, record_events, deref, alloc, lift, raise, get,
    bind, ret in *;
  cbv beta iota zeta delta [server heap clientCounter winsize trace negb] in *.

(** Brings a trace [((t ++ [a]) ++ [b]) ++ ...] to the form
    [t ++ [a; b; ...]]. *)
Ltac flatten_trace :=
  repeat rewrite <- app_assoc in *; simpl app in *.

(** Case analysis on an innermost [match] or [if] scrutinee of a
    hypothesis, repeated until none is left. *)
Ltac innermost_scrutinee t :=
  lazymatch t with
  | context [match ?y with _ => _ end] => innermost_scrutinee y
  | _ => destruct t eqn:?
  end.

Ltac break_match_in H :=
  match type of H with
  | context [match ?x with _ => _ end] => innermost_scrutinee x
  end;
  cbv beta iota zeta delta [server heap clientCounter winsize trace negb] in H.

(** From [t ++ l1 = t ++ l2], with both sides flattened, to [l1 = l2]. *)
Ltac cancel_trace H :=
  simpl in H; flatten_trace;
  first [ apply app_inv_head in H
        | rewrite <- (app_nil_r (trace _)) in H at 1; apply app_inv_head in H ].

(** ** Connection-level requests *)

(** C10. Every connection-level request that wants a reply is answered
    with a decline, whatever its type and payload, requests that want none
    get none, and handling them changes nothing but the trace. *)
Theorem connection_requests_all_declined :
  forall (reqs : list Request) (st : State),
  exists (st' : State) (evs : list event),
    HandleRequests reqs st = (Ok tt, st') /\
    same_store st st' /\
    trace st' = trace st ++ evs /\
    replies evs = List.map (fun _ => false) (List.filter WantReply reqs).
Proof.
  induction reqs as [|req rest IH]; intros st.
  - exists st, []. simpl. unfold ret. rewrite app_nil_r.
    repeat split.
  - simpl HandleRequests. unfold_monad. simpl List.filter.
    destruct (WantReply req) eqn:Hw; simpl;
      match goal with |- context [HandleRequests rest ?s] =>
        destruct (IH s) as (st' & evs & Hrun & Hsame & Htr & Hrep) end;
      simpl in Htr; flatten_trace.
    + exists st', ([ELog LvlDebug "HandleRequest: %v" []; EReply false] ++ evs).
      split; [exact Hrun|]. split; [exact Hsame|]. split; [exact Htr|].
      simpl. now rewrite Hrep.
    + exists st', ([ELog LvlDebug "HandleRequest: %v" []] ++ evs).
      split; [exact Hrun|]. split; [exact Hsame|]. split; [exact Htr|].
      simpl. exact Hrep.
Qed.

(** ** Channel-level requests: [exec] and [shell] *)

(** C8. An [exec] request is declined: the fixed warning, which names the
    feature that is not implemented, is written to the channel, then the
    handler sleeps three seconds, and only then the reply (false) is sent,
    when one is wanted. Nothing else changes. *)
Theorem exec_declined_after_warning_and_delay :
  forall (X : Externals) (c : Client) (want : bool) (payload : slice)
         (st : State),
  exists st' : State,
    handle_request X c
      {| ReqType := "exec"; WantReply := want; Payload := payload |} st
      = (Ok tt, st') /\
    same_store st st' /\
    trace st' =
      trace st ++
        [ELog LvlDebug "HandleChannelRequests.req exec: %q"
           [string_of_slice payload];
         EChanWrite (exec_warning +:+ LF);
         ESleep 3] ++
        (if want
         then [ELog LvlDebug "Declining %s request..." ["exec"]; EReply false]
         else []) /\
    (exists pre post : string,
        exec_warning = pre +:+ "exec is not yet implemented" +:+ post).
Proof.
  intros X c want payload st.
  unfold handle_request, dispatch, handle_exec. simpl.
  unfold_monad. simpl.
  destruct want; simpl; eexists; (split; [reflexivity|]); simpl;
    flatten_trace; (split; [repeat split|]);
    (split; [reflexivity|]).
  all: exists (substring 0 20 exec_warning),
         (substring 47 100 exec_warning); reflexivity.
Qed.

(** The launcher (lines 160-215) only logs and queries: it sends no reply,
    starts nothing, and leaves the store alone. *)
Lemma launch_command_effects (X : Externals) (c : Client) (st st' : State)
    (r : result (option Cmd)) :
  launch_command X c st = (r, st') ->
  same_store st st' /\
  exists evs, trace st' = trace st ++ evs /\ replies evs = [] /\
              started evs = [].
Proof.
  unfold launch_command. unfold_monad. intros H.
  repeat break_match_in H;
    inversion H; subst; clear H; cbn [trace]; flatten_trace;
    (split; [repeat split|]);
    first [ (exists []); rewrite app_nil_r; repeat split; fail
          | eexists; split; [reflexivity|]; split; reflexivity ].
Qed.

(** C2. A [shell] request is answered with an accept only if its payload
    has length zero and the command's start did not fail. A [shell] request
    with a non-empty payload is declined: nothing is queried or started,
    the store is unchanged, and the reply, when wanted, is false. *)
Theorem shell_accepted_only_if_empty_payload_and_started :
  forall (X : Externals) (c : Client) (want : bool) (payload : slice)
         (st st' : State) (r : result unit) (evs : list event),
    handle_request X c
      {| ReqType := "shell"; WantReply := want; Payload := payload |} st
      = (r, st') ->
    trace st' = trace st ++ evs ->
    (In (EReply true) evs ->
       len payload = 0%nat /\
       exists (cmd : Cmd) (tr : list event),
         started evs = [cmd] /\ Start X tr cmd = GoOk tt) /\
    (len payload <> 0%nat ->
       r = Ok tt /\ same_store st st' /\
       evs = ELog LvlDebug "HandleChannelRequests.req shell" [] ::
             (if want
              then [ELog LvlDebug "Declining %s request..." ["shell"];
                    EReply false]
              else [])).
Proof.
  intros X c want payload st st' r evs Hrun Htr.
  unfold handle_request, dispatch, handle_shell, write_banner,
    launch_command in Hrun.
  cbn [String.eqb Ascii.eqb Bool.eqb ReqType WantReply Payload] in Hrun.
  unfold_monad.
  repeat break_match_in Hrun;
    inversion Hrun; subst; clear Hrun; cbn [trace] in Htr;
    cancel_trace Htr; subst evs;
    repeat match goal with
           | H : (len _ =? 0)%nat = true |- _ => apply Nat.eqb_eq in H
           | H : (len _ =? 0)%nat = false |- _ => apply Nat.eqb_neq in H
           | H : Start _ _ _ = GoOk ?u |- _ => destruct u
           end.
  all: split; [intros Hin | intros Hne].
  all: try contradiction.
  all: try (simpl in Hin; intuition discriminate).
  all: try (split; [reflexivity|]; split; [repeat split | reflexivity]).
  all: split; [assumption|]; do 2 eexists; split; [reflexivity | eassumption].
Qed.

(** ** The launcher: join or create *)

Lemma record_events_app (l1 l2 : list event) (st : State) :
  record_events l2 (record_events l1 st) = record_events (l1 ++ l2) st.
Proof. unfold record_events. simpl. now rewrite app_assoc. Qed.

(** What a non-local launch with reuse enabled does when the query
    succeeds: one query, one log line, and the command to start. *)
Lemma launch_command_after_query (X : Externals) (c : Client) (st : State)
    (cfg : ClientConfig.t) (buf : string) :
  heap st !! Config c = Some cfg ->
  ClientConfig.IsLocal cfg = false ->
  Server.NoJoin (server st) = false ->
  CombinedOutput X (trace st) (query_command X cfg) = GoOk buf ->
  let args :=
    if negb (String.eqb (TrimSpace X buf) "")
    then join_args (server st) cfg (TrimSpace X buf)
    else create_args (server st) cfg in
  launch_command X c st =
    (Ok (Some (with_Env (EnvList X (ClientConfig.Env cfg))
                 (Command "docker" args))),
     record_events [ECombinedOutput (query_command X cfg);
                    ELog LvlDebug "Executing 'docker %s'" [Join args " "]]
       st).
Proof.
  intros Hcfg Hlocal Hjoin Hout args.
  unfold launch_command, bind, deref. rewrite Hcfg, Hlocal.
  unfold get, bind. rewrite Hjoin. cbn [negb].
  unfold emit, bind. rewrite Hout.
  unfold ret, logf, emit. cbn beta iota.
  now rewrite record_events_app.
Qed.

(** The argument list of a create launch, written out. *)
Lemma create_args_spelled_out (srv : Server.t) (cfg : ClientConfig.t) :
  create_args srv cfg =
    ["run"] ++
    (match ClientConfig.DockerRunArgs cfg with
     | [] => Server.DockerRunArgs srv
     | own => own
     end) ++
    ["--label=ssh2docker";
     "--label=user=" +:+ ClientConfig.RemoteUser cfg;
     "--label=image=" +:+ ClientConfig.ImageName cfg] ++
    (if String.eqb (ClientConfig.User cfg) "" then []
     else ["-u"; ClientConfig.User cfg]) ++
    (if String.eqb (ClientConfig.EntryPoint cfg) "" then []
     else ["--entrypoint"; ClientConfig.EntryPoint cfg]) ++
    [ClientConfig.ImageName cfg] ++
    (match ClientConfig.Command cfg with
     | Some command => command
     | None => [Server.DefaultShell srv]
     end).
Proof.
  unfold create_args.
  destruct (ClientConfig.DockerRunArgs cfg) as [|a own];
    destruct (String.eqb (ClientConfig.User cfg) "");
    destruct (String.eqb (ClientConfig.EntryPoint cfg) "");
    destruct (ClientConfig.Command cfg);
    cbn [length Nat.ltb Nat.leb negb];
    repeat rewrite <- app_assoc; reflexivity.
Qed.

(** C3. A non-local [shell] request with reuse enabled queries for a
    running container carrying the marker label, the image label and the
    remote-user label. When the query answers with a non-empty identifier,
    the one command started attaches to it ([exec -it]) with the session's
    entrypoint, or the server's default shell when none is set, and with
    none of the create arguments. When it answers with nothing, the one
    command started is a [run] whose arguments are, in order: the session's
    launch arguments when there are any, else the server's; the marker, the
    remote-user and the image label; [-u] and the user when set;
    [--entrypoint] and the entrypoint when set; the image name; and then
    the trailing command. *)
Theorem shell_joins_running_container_or_creates :
  forall (X : Externals) (c : Client) (want : bool) (payload : slice)
         (st : State) (cfg : ClientConfig.t) (buf : string),
    len payload = 0%nat ->
    heap st !! Config c = Some cfg ->
    ClientConfig.IsLocal cfg = false ->
    Server.NoJoin (server st) = false ->
    CombinedOutput X
      (trace st ++ [ELog LvlDebug "HandleChannelRequests.req shell" []])
      (query_command X cfg) = GoOk buf ->
    let existing := TrimSpace X buf in
    cmd_Args (query_command X cfg) =
      ["ps"; "--filter=label=ssh2docker";
       "--filter=label=image=" +:+ ClientConfig.ImageName cfg;
       "--filter=label=user=" +:+ ClientConfig.RemoteUser cfg;
       "--quiet"; "--no-trunc"] /\
    exists (r : result unit) (st' : State) (evs : list event) (cmd : Cmd),
      handle_request X c
        {| ReqType := "shell"; WantReply := want; Payload := payload |} st
        = (r, st') /\
      trace st' = trace st ++ evs /\
      In (ECombinedOutput (query_command X cfg)) evs /\
      started evs = [cmd] /\
      cmd_Path cmd = "docker" /\
      (existing <> "" ->
         cmd_Args cmd =
           ["exec"; "-it"; existing;
            if String.eqb (ClientConfig.EntryPoint cfg) ""
            then Server.DefaultShell (server st)
            else ClientConfig.EntryPoint cfg]) /\
      (existing = "" ->
         cmd_Args cmd =
           ["run"] ++
           (match ClientConfig.DockerRunArgs cfg with
            | [] => Server.DockerRunArgs (server st)
            | own => own
            end) ++
           ["--label=ssh2docker";
            "--label=user=" +:+ ClientConfig.RemoteUser cfg;
            "--label=image=" +:+ ClientConfig.ImageName cfg] ++
           (if String.eqb (ClientConfig.User cfg) "" then []
            else ["-u"; ClientConfig.User cfg]) ++
           (if String.eqb (ClientConfig.EntryPoint cfg) "" then []
            else ["--entrypoint"; ClientConfig.EntryPoint cfg]) ++
           [ClientConfig.ImageName cfg] ++
           (match ClientConfig.Command cfg with
            | Some command => command
            | None => [Server.DefaultShell (server st)]
            end)).
Proof.
  intros X c want payload st cfg buf Hlen Hcfg Hlocal Hjoin Hout existing.
  split; [reflexivity|].
  pose proof (launch_command_after_query X c
                (record_events
                   [ELog LvlDebug "HandleChannelRequests.req shell" []] st)
                cfg buf Hcfg Hlocal Hjoin Hout) as Hlaunch.
  cbv zeta in Hlaunch. fold existing in Hlaunch.
  unfold handle_request, dispatch, handle_shell.
  cbn [String.eqb Ascii.eqb Bool.eqb ReqType WantReply Payload].
  rewrite Hlen. cbn [Nat.eqb negb].
  unfold logf, bind at 1 2 3. unfold emit at 1. rewrite Hlaunch.
  set (args := if negb (String.eqb existing "") then _ else _) in *.
  assert (Hargs_join : existing <> "" ->
            args = join_args (server st) cfg existing).
  { intros Hne. subst args. apply String.eqb_neq in Hne. now rewrite Hne. }
  assert (Hargs_create : existing = "" -> args = create_args (server st) cfg).
  { intros He. subst args. apply String.eqb_eq in He. now rewrite He. }
  assert (Hjoin_args : join_args (server st) cfg existing =
            ["exec"; "-it"; existing;
             if String.eqb (ClientConfig.EntryPoint cfg) ""
             then Server.DefaultShell (server st)
             else ClientConfig.EntryPoint cfg]).
  { unfold join_args.
    now destruct (String.eqb (ClientConfig.EntryPoint cfg) ""). }
  clearbody args.
  unfold write_banner, get, bind, emit, logf, ret. cbn beta iota.
  repeat rewrite record_events_app.
  cbn [server record_events trace app].
  destruct (negb (String.eqb (Server.Banner (server st)) ""));
    cbn beta iota; repeat rewrite record_events_app;
    cbn [server record_events trace app];
    match goal with |- context [Start X ?tr ?cm] =>
      destruct (Start X tr cm) end;
    cbn beta iota; unfold emit; cbn beta iota;
    repeat rewrite record_events_app;
    destruct want; cbn beta iota; repeat rewrite record_events_app;
    do 4 eexists;
    (split; [reflexivity|]);
    (split; [cbn [record_events trace]; repeat rewrite <- app_assoc;
             reflexivity|]);
    (split; [cbn; tauto|]);
    (split; [reflexivity|]);
    (split; [reflexivity|]);
    (split;
     [ intros Hne; cbn [cmd_Args with_Env Command];
       rewrite (Hargs_join Hne); exact Hjoin_args
     | intros He; cbn [cmd_Args with_Env Command];
       rewrite (Hargs_create He); apply create_args_spelled_out ]).
Qed.

(** ** The trailing command of a create launch *)

(** Whatever the server and the connection, a session whose configuration
    is the one [NewClient] seeds gets no trailing command at all: the
    argument list ends with the image name. *)
Lemma create_args_of_seeded_config (srv : Server.t) (conn : ServerConn) :
  exists front : list string,
    create_args srv (default_config conn) =
      front ++ [ClientConfig.ImageName (default_config conn)].
Proof.
  rewrite create_args_spelled_out. cbn [default_config ClientConfig.Command].
  eexists. rewrite app_nil_r. repeat rewrite app_assoc. reflexivity.
Qed.

(** C4 (the code departs from the claim). User [alpine_test] connects to a
    server whose default shell is [/bin/sh]; the registry is empty, so the
    session gets the seeded configuration, whose explicit command is the
    empty list; no container is running. The [shell] request starts
    [docker run] with the image name as last argument: the default shell is
    not appended. *)
Theorem seeded_empty_command_gets_no_default_shell :
  let run := Fixture.session (Fixture.world (GoOk "") (GoOk tt))
               [Fixture.request "shell" true []] in
  (ClientConfig.Command <$> Fixture.config_after run) = Some (Some []) /\
  Server.DefaultShell (server (snd run)) = "/bin/sh" /\
  started (trace (snd run)) =
    [ {| cmd_Path := "docker";
         cmd_Args := ["run"; "-it"; "--rm"; "--label=ssh2docker";
                      "--label=user=anonymous"; "--label=image=alpine/test";
                      "alpine/test"];
         cmd_Env := Some [] |} ].
Proof. vm_compute. repeat split. Qed.

(** ** Slices and byte arithmetic *)

Lemma byte_val_range (b : byte) : 0 <= byte_val b < 256.
Proof.
  unfold byte_val. pose proof (Byte.to_N_bounded b) as H.
  lia.
Qed.

Lemma length_elements_of (p : slice) :
  slice_wf p -> length (elements_of p) = len p.
Proof.
  unfold slice_wf, cap, elements_of. intros H.
  rewrite length_firstn. lia.
Qed.

Lemma index_in_elements (p : slice) (i : nat) (b : byte) :
  nth_error (elements_of p) i = Some b -> index p (Z.of_nat i) = Ok b.
Proof.
  unfold elements_of, index. rewrite nth_error_firstn.
  destruct (i <? len p)%nat eqn:Hlt; [|discriminate].
  apply Nat.ltb_lt in Hlt. intros Hnth.
  replace (0 <=? Z.of_nat i) with true by (symmetry; apply Z.leb_le; lia).
  replace (Z.of_nat i <? Z.of_nat (len p)) with true
    by (symmetry; apply Z.ltb_lt; lia).
  simpl. rewrite Nat2Z.id, Hnth. reflexivity.
Qed.

Lemma slice_range_in_elements (p : slice) (lo n : nat) :
  slice_wf p -> (lo + n <= len p)%nat ->
  exists s : slice,
    slice_range p (Z.of_nat lo) (Z.of_nat (lo + n)) = Ok s /\
    elements_of s = firstn n (skipn lo (elements_of p)).
Proof.
  unfold slice_wf. intros Hwf Hle. unfold slice_range.
  replace (0 <=? Z.of_nat lo) with true by (symmetry; apply Z.leb_le; lia).
  replace (Z.of_nat lo <=? Z.of_nat (lo + n)) with true
    by (symmetry; apply Z.leb_le; lia).
  replace (Z.of_nat (lo + n) <=? Z.of_nat (cap p)) with true
    by (symmetry; apply Z.leb_le; lia).
  eexists. split; [reflexivity|].
  unfold elements_of. cbn [arr len].
  replace (Z.to_nat (Z.of_nat (lo + n) - Z.of_nat lo)) with n by lia.
  rewrite Nat2Z.id, skipn_firstn_comm, firstn_firstn.
  f_equal. lia.
Qed.


Lemma uint8_add_small (a b : Z) : 0 <= a + b < 256 -> uint8_add a b = a + b.
Proof. intros H. unfold uint8_add. now apply Z.mod_small. Qed.

Lemma middle_of_app {A} (a b c : list A) :
  firstn (length b) (skipn (length a) (a ++ b ++ c)) = b.
Proof.
  now rewrite drop_app_length, take_app_length.
Qed.

Lemma nth_error_after {A} (a : list A) (x : A) (c : list A) :
  nth_error (a ++ x :: c) (length a) = Some x.
Proof. rewrite nth_error_app2, Nat.sub_diag by lia. reflexivity. Qed.

(** ** [env] and [pty-req] when no offset wraps around *)

(** An [env] request laid out as three bytes, the key length, the key,
    three bytes, the value length, the value: when [K+8+V] stays below
    256 the handler stores exactly the declared key and value. (The reply,
    when wanted, is false: the [env] arm never sets [ok].) *)

Lemma env_in_range (X : Externals) (c : Client) (want : bool) (p : slice)
    (st : State) (cfg : ClientConfig.t)
    (h key pad value rest : list byte) (kb vb : byte) :
  slice_wf p ->
  elements_of p = h ++ kb :: key ++ pad ++ vb :: value ++ rest ->
  length h = 3%nat -> length pad = 3%nat ->
  byte_val kb = Z.of_nat (length key) ->
  byte_val vb = Z.of_nat (length value) ->
  (length key + 8 + length value < 256)%nat ->
  heap st !! Config c = Some cfg ->
  exists (st' : State) (evs : list event),
    handle_request X c
      {| ReqType := "env"; WantReply := want; Payload := p |} st
      = (Ok tt, st') /\
    heap st' =
      <[Config c :=
          ClientConfig.set_Env
            (insert (string_of_list_byte key) (string_of_list_byte value))
            cfg]> (heap st) /\
    server st' = server st /\ winsize st' = winsize st /\
    trace st' = trace st ++ evs /\
    replies evs = if want then [false] else [].
Proof.
  intros Hwf Hel Hh Hpad Hk Hv Hsmall Hcfg.
  assert (Hlen : len p = (length key + length value + length rest + 8)%nat).
  { rewrite <- (length_elements_of p Hwf), Hel.
    repeat (rewrite ?length_app; cbn [length]). lia. }
  (* the four reads *)
  assert (Hi3 : index p 3 = Ok kb).
  { apply (index_in_elements p 3). rewrite Hel, <- Hh.
    apply nth_error_after. }
  destruct (slice_range_in_elements p 4 (length key) Hwf ltac:(lia))
    as (ks & Hks & Hks_el).
  change (Z.of_nat 4) with 4 in Hks.
  assert (Hkey : elements_of ks = key).
  { rewrite Hks_el, Hel.
    change (h ++ kb :: key ++ pad ++ vb :: value ++ rest)
      with (h ++ [kb] ++ key ++ pad ++ vb :: value ++ rest).
    rewrite app_assoc.
    replace 4%nat with (length (h ++ [kb]))
      by (rewrite length_app, Hh; reflexivity).
    apply middle_of_app. }
  assert (Hiv : index p (Z.of_nat (length key + 7)) = Ok vb).
  { apply index_in_elements. rewrite Hel.
    change (h ++ kb :: key ++ pad ++ vb :: value ++ rest)
      with (h ++ [kb] ++ key ++ pad ++ vb :: value ++ rest).
    rewrite !app_assoc.
    replace (length key + 7)%nat with (length (((h ++ [kb]) ++ key) ++ pad))
      by (rewrite !length_app, Hh, Hpad; cbn [length]; lia).
    apply nth_error_after. }
  destruct (slice_range_in_elements p (length key + 8) (length value) Hwf
              ltac:(lia)) as (vs & Hvs & Hvs_el).
  assert (Hvalue : elements_of vs = value).
  { rewrite Hvs_el, Hel.
    change (h ++ kb :: key ++ pad ++ vb :: value ++ rest)
      with (h ++ [kb] ++ key ++ pad ++ [vb] ++ value ++ rest).
    rewrite !app_assoc. rewrite <- (app_assoc _ value rest).
    replace (length key + 8)%nat
      with (length ((((h ++ [kb]) ++ key) ++ pad) ++ [vb]))
      by (rewrite !length_app, Hh, Hpad; cbn [length]; lia).
    apply middle_of_app. }
  (* the handler *)
  unfold handle_request, dispatch, handle_env.
  cbn [String.eqb Ascii.eqb Bool.eqb ReqType WantReply Payload].
  unfold bind at 1 2. unfold lift at 1. rewrite Hi3. cbv beta iota.
  rewrite Hk.
  rewrite (uint8_add_small _ 4), (uint8_add_small _ 7),
    (uint8_add_small _ 8) by lia.
  replace (Z.of_nat (length key) + 4) with (Z.of_nat (4 + length key)) by lia.
  unfold bind at 1. unfold lift at 1. rewrite Hks. cbv beta iota.
  replace (Z.of_nat (length key) + 7) with (Z.of_nat (length key + 7)) by lia.
  unfold bind at 1. unfold lift at 1. rewrite Hiv. cbv beta iota.
  rewrite Hv.
  rewrite (uint8_add_small (Z.of_nat (length key) + 8)) by lia.
  replace (Z.of_nat (length key) + 8 + Z.of_nat (length value))
    with (Z.of_nat (length key + 8 + length value)) by lia.
  replace (Z.of_nat (length key) + 8) with (Z.of_nat (length key + 8)) by lia.
  unfold bind at 1. unfold lift at 1. rewrite Hvs. cbv beta iota.
  unfold string_of_slice. rewrite Hkey, Hvalue.
  unfold logf, set_env, set_heap, deref, emit, bind, ret.
  cbn [heap record_events]. rewrite Hcfg.
  destruct want; cbv beta iota; cbn [negb];
    do 2 eexists; (split; [reflexivity|]);
    cbn [heap server winsize trace record_events];
    repeat rewrite <- app_assoc;
    repeat split; reflexivity.
Qed.

(** X16. Two [env] requests for the same key, one after the other: the
    later value is the one left in the session environment. *)
Lemma env_last_write_wins (X : Externals) (c : Client) (w1 w2 : bool)
    (p1 p2 : slice) (st : State) (cfg : ClientConfig.t)
    (h1 h2 key pad1 pad2 v1 v2 rest1 rest2 : list byte) (kb b1 b2 : byte) :
  slice_wf p1 -> slice_wf p2 ->
  elements_of p1 = h1 ++ kb :: key ++ pad1 ++ b1 :: v1 ++ rest1 ->
  elements_of p2 = h2 ++ kb :: key ++ pad2 ++ b2 :: v2 ++ rest2 ->
  length h1 = 3%nat -> length pad1 = 3%nat ->
  length h2 = 3%nat -> length pad2 = 3%nat ->
  byte_val kb = Z.of_nat (length key) ->
  byte_val b1 = Z.of_nat (length v1) ->
  byte_val b2 = Z.of_nat (length v2) ->
  (length key + 8 + length v1 < 256)%nat ->
  (length key + 8 + length v2 < 256)%nat ->
  heap st !! Config c = Some cfg ->
  exists st' : State,
    serve X c
      [ {| ReqType := "env"; WantReply := w1; Payload := p1 |};
        {| ReqType := "env"; WantReply := w2; Payload := p2 |} ] st
      = (Ok tt, st') /\
    heap st' !! Config c =
      Some (ClientConfig.set_Env
              (insert (string_of_list_byte key) (string_of_list_byte v2))
              cfg).
Proof.
  intros Hwf1 Hwf2 Hel1 Hel2 Hh1 Hpad1 Hh2 Hpad2 Hk Hb1 Hb2 Hs1 Hs2 Hcfg.
  destruct (env_in_range X c w1 p1 st cfg h1 key pad1 v1 rest1 kb b1
              Hwf1 Hel1 Hh1 Hpad1 Hk Hb1 Hs1 Hcfg)
    as (st1 & evs1 & Hrun1 & Hheap1 & _).
  assert (Hcfg1 : heap st1 !! Config c =
            Some (ClientConfig.set_Env
                    (insert (string_of_list_byte key)
                       (string_of_list_byte v1)) cfg))
    by (rewrite Hheap1; apply lookup_insert_eq).
  destruct (env_in_range X c w2 p2 st1 _ h2 key pad2 v2 rest2 kb b2
              Hwf2 Hel2 Hh2 Hpad2 Hk Hb2 Hs2 Hcfg1)
    as (st2 & evs2 & Hrun2 & Hheap2 & _).
  exists st2. split.
  - cbn [serve]. unfold bind at 1. rewrite Hrun1.
    unfold bind at 1. rewrite Hrun2. reflexivity.
  - rewrite Hheap2, lookup_insert_eq. f_equal.
    destruct cfg. unfold ClientConfig.set_Env. cbn.
    now rewrite insert_insert_eq.
Qed.


(** ** [pty-req] and [env] when an offset wraps around *)

Lemma uint8_add_wrap (a b : Z) :
  256 <= a + b < 512 -> uint8_add a b = a + b - 256.
Proof.
  intros H. unfold uint8_add. symmetry.
  apply (Z.mod_unique_pos (a + b) 256 1); lia.
Qed.

Lemma slice_range_backwards (p : slice) (lo hi : Z) :
  hi < lo -> slice_range p lo hi = Panicked SliceBoundsOutOfRange.
Proof.
  intros H. unfold slice_range.
  replace (lo <=? hi) with false by (symmetry; apply Z.leb_gt; lia).
  now rewrite andb_false_r.
Qed.

(** X13. A [pty-req] whose length byte is 252 or more panics, whatever
    follows and whatever the capacity of the payload slice: nothing is
    changed and nothing is sent. *)
Lemma pty_req_wraps (X : Externals) (c : Client) (want : bool) (p : slice)
    (st : State) (cfg : ClientConfig.t) (nb : byte) :
  index p 3 = Ok nb ->
  252 <= byte_val nb ->
  heap st !! Config c = Some cfg ->
  handle_request X c
    {| ReqType := "pty-req"; WantReply := want; Payload := p |} st
    = (Panicked SliceBoundsOutOfRange, st).
Proof.
  intros Hi3 Hbig Hcfg. pose proof (byte_val_range nb) as Hr.
  unfold handle_request, dispatch, handle_pty_req.
  cbn [String.eqb Ascii.eqb Bool.eqb ReqType WantReply Payload].
  unfold bind at 1 2. unfold lift at 1. rewrite Hi3. cbv beta iota.
  unfold bind at 1. unfold deref at 1. rewrite Hcfg. cbv beta iota.
  unfold bind at 1. unfold lift at 1.
  rewrite slice_range_backwards; [reflexivity|].
  rewrite uint8_add_wrap by lia. lia.
Qed.

(** X14. An [env] request whose key and value fit their length bytes one
    by one, but not together ([K+8 < 256 <= K+8+V]), panics: nothing is
    changed and nothing is sent. *)
Lemma env_value_wraps (X : Externals) (c : Client) (want : bool) (p : slice)
    (st : State) (h key pad value rest : list byte) (kb vb : byte) :
  slice_wf p ->
  elements_of p = h ++ kb :: key ++ pad ++ vb :: value ++ rest ->
  length h = 3%nat -> length pad = 3%nat ->
  byte_val kb = Z.of_nat (length key) ->
  byte_val vb = Z.of_nat (length value) ->
  (length key + 8 < 256 <= length key + 8 + length value)%nat ->
  handle_request X c
    {| ReqType := "env"; WantReply := want; Payload := p |} st
    = (Panicked SliceBoundsOutOfRange, st).
Proof.
  intros Hwf Hel Hh Hpad Hk Hv Hwrap.
  pose proof (byte_val_range vb) as Hr.
  assert (Hlen : len p = (length key + length value + length rest + 8)%nat).
  { rewrite <- (length_elements_of p Hwf), Hel.
    repeat (rewrite ?length_app; cbn [length]). lia. }
  assert (Hi3 : index p 3 = Ok kb).
  { apply (index_in_elements p 3). rewrite Hel, <- Hh.
    apply nth_error_after. }
  destruct (slice_range_in_elements p 4 (length key) Hwf ltac:(lia))
    as (ks & Hks & _).
  change (Z.of_nat 4) with 4 in Hks.
  assert (Hiv : index p (Z.of_nat (length key + 7)) = Ok vb).
  { apply index_in_elements. rewrite Hel.
    change (h ++ kb :: key ++ pad ++ vb :: value ++ rest)
      with (h ++ [kb] ++ key ++ pad ++ vb :: value ++ rest).
    rewrite !app_assoc.
    replace (length key + 7)%nat with (length (((h ++ [kb]) ++ key) ++ pad))
      by (rewrite !length_app, Hh, Hpad; cbn [length]; lia).
    apply nth_error_after. }
  unfold handle_request, dispatch, handle_env.
  cbn [String.eqb Ascii.eqb Bool.eqb ReqType WantReply Payload].
  unfold bind at 1 2. unfold lift at 1. rewrite Hi3. cbv beta iota.
  rewrite Hk.
  rewrite (uint8_add_small _ 4), (uint8_add_small _ 7),
    (uint8_add_small _ 8) by lia.
  replace (Z.of_nat (length key) + 4) with (Z.of_nat (4 + length key)) by lia.
  unfold bind at 1. unfold lift at 1. rewrite Hks. cbv beta iota.
  replace (Z.of_nat (length key) + 7) with (Z.of_nat (length key + 7)) by lia.
  unfold bind at 1. unfold lift at 1. rewrite Hiv. cbv beta iota.
  rewrite Hv.
  unfold bind at 1. unfold lift at 1.
  rewrite slice_range_backwards; [reflexivity|].
  rewrite uint8_add_wrap by lia. lia.
Qed.

(** ** Big-endian geometry *)

Lemma lor_shiftl_low (hi lo n : Z) :
  0 <= n -> 0 <= lo < 2 ^ n ->
  Z.lor (Z.shiftl hi n) lo = hi * 2 ^ n + lo.
Proof.
  intros Hn Hlo.
  rewrite Z.shiftl_mul_pow2 by lia.
  assert (Hdisj : Z.land (hi * 2 ^ n) lo = 0).
  { apply Z.bits_inj'. intros k Hk.
    rewrite Z.land_spec, Z.bits_0.
    destruct (Z.lt_ge_cases k n) as [Hlt|Hge].
    - rewrite Z.mul_pow2_bits_low by lia. reflexivity.
    - destruct (Z.eq_dec lo 0) as [->|Hnz].
      + rewrite Z.bits_0. apply andb_false_r.
      + rewrite (Z.bits_above_log2 lo k); [apply andb_false_r|lia|].
        apply Z.log2_lt_pow2; [lia|].
        apply Z.lt_le_trans with (2 ^ n); [lia|].
        apply Z.pow_le_mono_r; lia. }
  rewrite <- Z.lxor_lor by exact Hdisj.
  symmetry. apply Z.add_nocarry_lxor. exact Hdisj.
Qed.

Lemma be32_big_endian (b0 b1 b2 b3 : byte) :
  be32 b0 b1 b2 b3 =
    byte_val b0 * 2 ^ 24 + byte_val b1 * 2 ^ 16 + byte_val b2 * 2 ^ 8
    + byte_val b3.
Proof.
  pose proof (byte_val_range b0). pose proof (byte_val_range b1).
  pose proof (byte_val_range b2). pose proof (byte_val_range b3).
  unfold be32.
  rewrite (lor_shiftl_low (byte_val b2) (byte_val b3) 8) by lia.
  rewrite (lor_shiftl_low (byte_val b1) _ 16) by lia.
  rewrite (lor_shiftl_low (byte_val b0) _ 24) by lia.
  lia.
Qed.

(** ** Payload decoding: [pty-req] and [env] *)

(** C5 (the code departs from the claim). An [env] or [pty-req] request
    with a three-byte payload is not declined: reading [Payload[3]] goes
    out of range, the handler panics, and no reply is sent. *)
Theorem short_payload_panics_instead_of_declining :
  let X := Fixture.world (GoOk "") (GoOk tt) in
  let run_env :=
    Fixture.session X [Fixture.request "env" true (Fixture.bytes [0; 0; 0])] in
  let run_pty :=
    Fixture.session X
      [Fixture.request "pty-req" true (Fixture.bytes [0; 0; 0])] in
  fst run_env = Panicked IndexOutOfRange /\
  replies (trace (snd run_env)) = [] /\
  fst run_pty = Panicked IndexOutOfRange /\
  replies (trace (snd run_pty)) = [].
Proof. vm_compute. repeat split. Qed.

(** A [pty-req] that holds its term name but no geometry: [TERM] is written
    into the session environment before the geometry is looked at, and the
    handler then fails with the store already changed. *)
Example pty_req_without_geometry_mutates_then_panics :
  let run :=
    Fixture.session (Fixture.world (GoOk "") (GoOk tt))
      [Fixture.request "pty-req" true
         (Fixture.bytes [0; 0; 0; 5] ++ Fixture.text "xterm")] in
  fst run = Panicked IndexOutOfRange /\
  (ClientConfig.Env <$> Fixture.config_after run)
    = Some {[ "TERM" := "xterm" ]} /\
  replies (trace (snd run)) = [].
Proof. vm_compute. repeat split. Qed.

(** C6 (the code departs from the claim). A [pty-req] whose term name is
    252 bytes long, followed by the sixteen bytes of geometry:
    [termLen+4] is computed on [byte] and wraps to 0, the slice expression
    [Payload[4:0]] panics, [TERM] is not set and the terminal is not
    resized. *)
Theorem pty_req_long_term_name_panics :
  let payload :=
    Fixture.bytes [0; 0; 0; 252] ++ repeat "a"%byte 252 ++
    Fixture.bytes [0; 0; 0; 80; 0; 0; 0; 24; 0; 0; 0; 0; 0; 0; 0; 0] in
  let run :=
    Fixture.session (Fixture.world (GoOk "") (GoOk tt))
      [Fixture.request "pty-req" true payload] in
  uint8_add 252 4 = 0 /\
  fst run = Panicked SliceBoundsOutOfRange /\
  (ClientConfig.Env <$> Fixture.config_after run) = Some ∅ /\
  winsize (snd run) = ∅ /\
  replies (trace (snd run)) = [].
Proof. vm_compute. repeat split. Qed.

(** C7 (the code departs from the claim). An [env] request for [PATH] with
    a value of 250 bytes: [keyLen+8+valueLen] is computed on [byte] and
    wraps to 6, the slice expression [Payload[12:6]] panics, and the
    variable is not set. *)
Theorem env_long_value_panics :
  let payload :=
    Fixture.bytes [0; 0; 0; 4] ++ Fixture.text "PATH" ++
    Fixture.bytes [0; 0; 0; 250] ++ repeat "b"%byte 250 in
  let run :=
    Fixture.session (Fixture.world (GoOk "") (GoOk tt))
      [Fixture.request "env" true payload] in
  uint8_add (uint8_add 4 8) 250 = 6 /\
  fst run = Panicked SliceBoundsOutOfRange /\
  (ClientConfig.Env <$> Fixture.config_after run) = Some ∅ /\
  replies (trace (snd run)) = [].
Proof. vm_compute. repeat split. Qed.

(** With a key of 248 bytes nothing panics, and the wrong bytes are stored:
    [keyLen+8] wraps to 0 and the value is read from the start of the
    payload. *)
Example env_long_key_stores_wrong_value :
  let key := repeat "k"%byte 248 in
  let payload :=
    Fixture.bytes [0; 0; 0; 248] ++ key ++
    Fixture.bytes [0; 0; 0; 2] ++ Fixture.text "ok" in
  let run :=
    Fixture.session (Fixture.world (GoOk "") (GoOk tt))
      [Fixture.request "env" true payload] in
  fst run = Ok tt /\
  (ClientConfig.Env <$> Fixture.config_after run)
    = Some {[ string_of_list_byte key :=
                string_of_list_byte (Fixture.bytes [0; 0]) ]}.
Proof. vm_compute. repeat split. Qed.

(** ** The session registry *)

Lemma fresh_is_free (h : gmap loc ClientConfig.t) : h !! fresh h = None.
Proof.
  destruct (h !! fresh h) as [cfg|] eqn:Hlook; [|reflexivity].
  exfalso.
  assert (Hin : fresh h ∈ elements (dom h)).
  { apply elem_of_elements, elem_of_dom. eauto. }
  apply max_list_elem_of_le in Hin. unfold fresh in Hin. lia.
Qed.

Lemma fresh_ne_allocated (h : gmap loc ClientConfig.t) (p : loc)
    (cfg : ClientConfig.t) :
  h !! p = Some cfg -> fresh h <> p.
Proof.
  intros Hp Heq. rewrite <- Heq, fresh_is_free in Hp. discriminate.
Qed.

(** Replacing one character by another changes those characters and no
    others. *)
Lemma Replace_char (s : string) (old new : ascii) :
  list_ascii_of_string (Replace s old (String new EmptyString)) =
    List.map (fun ch => if Ascii.eqb ch old then new else ch)
      (list_ascii_of_string s).
Proof.
  induction s as [|ch rest IH]; [reflexivity|].
  cbn [Replace list_ascii_of_string List.map].
  destruct (Ascii.eqb ch old);
    [ change (String new EmptyString +:+ ?r) with (String new r) | ];
    cbn [list_ascii_of_string]; now rewrite IH.
Qed.

(** The first construction for an identity. *)
Lemma NewClient_first (X : Externals) (conn : ServerConn) (st : State)
    (host port : string) (rest : list string) :
  Server.ClientConfigs (server st) !! conn_RemoteAddr conn = None ->
  Split (conn_RemoteAddr conn) ":"%char = host :: port :: rest ->
  exists (c : Client) (st1 : State),
    NewClient X conn st = (Ok c, st1) /\
    Config c = fresh (heap st) /\
    ClientID c = conn_RemoteAddr conn /\
    Server.ClientConfigs (server st1) !! conn_RemoteAddr conn
      = Some (Config c) /\
    heap st1 !! Config c = Some (seeded_config X (server st) conn).
Proof.
  intros Hnone Hsplit.
  destruct st as [srv h counter ws tr].
  cbn [server heap] in *.
  unfold NewClient. unfold_monad.
  rewrite Hnone.
  destruct (String.eqb (Server.LocalUser srv) "") eqn:Hlocal;
    cbn beta iota;
    repeat (rewrite ?lookup_insert_eq, ?Hsplit; cbn beta iota;
            cbn [Server.ClientConfigs Server.set_ClientConfigs]);
    do 2 eexists; (split; [reflexivity|]); cbn [Config ClientID];
    repeat rewrite lookup_insert_eq;
    unfold seeded_config; rewrite Hlocal; repeat split;
    cbn [Server.ClientConfigs Server.set_ClientConfigs];
    apply lookup_insert_eq.
Qed.

(** A later construction for an identity that is registered. *)
Lemma NewClient_again (X : Externals) (conn : ServerConn) (st : State)
    (p : loc) (cfg : ClientConfig.t) (host port : string)
    (rest : list string) :
  Server.ClientConfigs (server st) !! conn_RemoteAddr conn = Some p ->
  heap st !! p = Some cfg ->
  Split (conn_RemoteAddr conn) ":"%char = host :: port :: rest ->
  exists (c : Client) (st1 : State),
    NewClient X conn st = (Ok c, st1) /\
    Config c = p /\
    Server.ClientConfigs (server st1) = Server.ClientConfigs (server st) /\
    heap st1 !! p = Some (ClientConfig.set_Env (ApplyDefaults X) cfg).
Proof.
  intros Hreg Hcfg Hsplit.
  pose proof (fresh_ne_allocated _ _ _ Hcfg) as Hne.
  destruct st as [srv h counter ws tr].
  cbn [server heap] in *.
  unfold NewClient. unfold_monad.
  rewrite Hreg.
  destruct (String.eqb (Server.LocalUser srv) "") eqn:Hlocal;
    cbn beta iota;
    repeat (rewrite ?lookup_insert_eq, ?Hreg, ?Hsplit,
              ?(lookup_insert_ne _ _ _ _ Hne), ?Hcfg; cbn beta iota);
    do 2 eexists; (split; [reflexivity|]); cbn [Config];
    (split; [reflexivity|]); (split; [reflexivity|]);
    now rewrite lookup_insert_eq.
Qed.

(** C9. The first construction for an identity registers a configuration
    seeded with the defaults: the image name is the requested user with
    every underscore replaced by a slash, the remote user is [anonymous],
    the environment is the empty one with the defaults applied, the
    explicit command is the empty list. Every later construction for the
    same identity, in any state where that record is still registered,
    hands out the very same record and allocates no new one for the
    client, so that an environment entry written through one client is
    read through the other. *)
Theorem registry_seeds_defaults_then_shares_record :
  forall (X : Externals) (conn : ServerConn) (st : State)
         (host port : string) (rest : list string),
    Server.ClientConfigs (server st) !! conn_RemoteAddr conn = None ->
    Split (conn_RemoteAddr conn) ":"%char = host :: port :: rest ->
    exists (c1 : Client) (st1 : State) (seeded : ClientConfig.t),
      NewClient X conn st = (Ok c1, st1) /\
      Server.ClientConfigs (server st1) !! conn_RemoteAddr conn
        = Some (Config c1) /\
      heap st1 !! Config c1 = Some seeded /\
      ClientConfig.ImageName seeded
        = Replace (conn_User conn) "_"%char "/" /\
      ClientConfig.RemoteUser seeded = "anonymous" /\
      ClientConfig.Env seeded = ApplyDefaults X ∅ /\
      ClientConfig.Command seeded = Some [] /\
      forall (conn' : ServerConn) (st2 : State) (cfg : ClientConfig.t),
        conn_RemoteAddr conn' = conn_RemoteAddr conn ->
        Server.ClientConfigs (server st2) !! conn_RemoteAddr conn
          = Some (Config c1) ->
        heap st2 !! Config c1 = Some cfg ->
        exists (c2 : Client) (st3 : State),
          NewClient X conn' st2 = (Ok c2, st3) /\
          Config c2 = Config c1 /\
          Server.ClientConfigs (server st3) !! conn_RemoteAddr conn
            = Some (Config c1) /\
          heap st3 !! Config c1
            = Some (ClientConfig.set_Env (ApplyDefaults X) cfg) /\
          forall key value : string,
            exists (st4 : State) (cfg' : ClientConfig.t),
              set_env (Config c1) key value st3 = (Ok tt, st4) /\
              deref (Config c2) st4 = (Ok cfg', st4) /\
              ClientConfig.Env cfg' !! key = Some value.
Proof.
  intros X conn st host port rest Hnone Hsplit.
  destruct (NewClient_first X conn st host port rest Hnone Hsplit)
    as (c1 & st1 & Hrun & Hp & _ & Hreg & Hheap).
  exists c1, st1, (seeded_config X (server st) conn).
  split; [exact Hrun|]. split; [exact Hreg|]. split; [exact Hheap|].
  do 4 (split; [reflexivity|]).
  intros conn' st2 cfg Hid Hreg2 Hheap2.
  rewrite <- Hid in Hreg2, Hsplit.
  destruct (NewClient_again X conn' st2 (Config c1) cfg host port rest
              Hreg2 Hheap2 Hsplit)
    as (c2 & st3 & Hrun2 & Hsame & Hreg3 & Hheap3).
  exists c2, st3.
  split; [exact Hrun2|]. split; [exact Hsame|].
  split; [now rewrite <- Hid, Hreg3|]. split; [exact Hheap3|].
  intros key value.
  unfold set_env, deref, bind, set_heap. rewrite Hheap3, Hsame.
  do 2 eexists. split; [reflexivity|].
  cbn [heap]. rewrite lookup_insert_eq. split; [reflexivity|].
  cbn [ClientConfig.Env ClientConfig.set_Env]. apply lookup_insert_eq.
Qed.

(** Line 88 reads [remoteAddr[1]]: for a remote address without a colon
    [NewClient] panics, after it has registered the record. The addresses
    of TCP connections always print as host:port. *)
Example NewClient_without_port_panics :
  let run :=
    NewClient Fixture.quiet
      {| conn_User := "alpine"; conn_RemoteAddr := "pipe" |} Fixture.st0 in
  fst run = Panicked IndexOutOfRange /\
  Server.ClientConfigs (server (snd run)) !! "pipe" = Some 1%nat.
Proof. vm_compute. repeat split. Qed.

(** ** The registry along a session *)






(** ** Teardown *)

Section TeardownProofs.

Import Teardown.

Lemma task_eqb_eq (a b : task) : task_eqb a b = true <-> a = b.
Proof. destruct a, b; simpl; split; intros; congruence. Qed.

Lemma set_pc_same (t : task) (v : pc) (f : task -> pc) : set_pc t v f t = v.
Proof. unfold set_pc. now destruct t. Qed.

Lemma set_pc_other (t t' : task) (v : pc) (f : task -> pc) :
  t' <> t -> set_pc t v f t' = f t'.
Proof.
  intros Hne. unfold set_pc.
  destruct (task_eqb t' t) eqn:E; [|reflexivity].
  apply task_eqb_eq in E. contradiction.
Qed.

Lemma teardown_events_app (s : state) (l : list tevent) (p : task -> pc)
    (d : bool) (m : option task) :
  teardown_events {| pcs := p; done := d; mutex := m; log := log s ++ l |}
  = teardown_events s ++ List.filter is_teardown l.
Proof. unfold teardown_events. simpl. apply List.filter_app. Qed.

Lemma invariant_init : invariant init.
Proof.
  constructor; simpl; try discriminate.
  - intros t. split; discriminate.
  - intros t [H|H]; discriminate.
  - reflexivity.
Qed.

Lemma invariant_complete (t : task) (failed : bool) (s s' : state) :
  invariant s -> complete t failed s = Some s' -> invariant s'.
Proof.
  intros [Hm Ha Hc Hl] Hstep. unfold complete in Hstep.
  destruct (pcs s t) eqn:Hpc; try discriminate.
  injection Hstep as <-.
  constructor; cbn [pcs done mutex].
  - intros t'. destruct (task_eqb t' t) eqn:E.
    + apply task_eqb_eq in E. subst t'. rewrite set_pc_same.
      specialize (Hm t). rewrite Hpc in Hm. simpl in *. exact Hm.
    + unfold set_pc. rewrite E. apply Hm.
  - intros t'. destruct (task_eqb t' t) eqn:E.
    + apply task_eqb_eq in E. subst t'. rewrite set_pc_same.
      intros [H|H]; discriminate.
    + unfold set_pc. rewrite E. apply Ha.
  - intros t'. destruct (task_eqb t' t) eqn:E.
    + apply task_eqb_eq in E. subst t'. rewrite set_pc_same. discriminate.
    + unfold set_pc. rewrite E. apply Hc.
  - rewrite teardown_events_app.
    replace (List.filter is_teardown _) with (@nil tevent)
      by (destruct t, failed; reflexivity).
    rewrite app_nil_r, Hl. destruct (done s); [reflexivity|].
    destruct (mutex s) as [h|] eqn:Hmx; [|reflexivity].
    destruct (task_eqb h t) eqn:E.
    + apply task_eqb_eq in E. subst h.
      pose proof (proj1 (Hm t) eq_refl) as Hh. rewrite Hpc in Hh.
      discriminate.
    + unfold set_pc. rewrite E. reflexivity.
Qed.


Lemma task_eqb_neq (a b : task) : task_eqb a b = false <-> a <> b.
Proof. destruct a, b; simpl; split; intros; congruence. Qed.

Lemma teardown_events_same_log (s : state) (p : task -> pc) (d : bool)
    (m : option task) :
  teardown_events {| pcs := p; done := d; mutex := m; log := log s |}
  = teardown_events s.
Proof. reflexivity. Qed.

Lemma invariant_advance (t : task) (s s' : state) :
  invariant s -> advance t s = Some s' -> invariant s'.
Proof.
  intros [Hm Ha Hc Hl] Hstep. unfold advance in Hstep.
  pose proof (Hm t) as Hmt. pose proof (Ha t) as Hat. pose proof (Hc t) as Hct.
  destruct (pcs s t) eqn:Hpc; try discriminate;
    [ | destruct (mutex s) as [h|] eqn:Hmx; try discriminate | | | | | ];
    injection Hstep as <-; constructor; cbn [pcs done mutex].
  all: try (intros t'; destruct (task_eqb t' t) eqn:E;
            [ apply task_eqb_eq in E; subst t'; rewrite set_pc_same
            | unfold set_pc; rewrite E; apply task_eqb_neq in E;
              pose proof (Hm t'); pose proof (Ha t'); pose proof (Hc t') ]).
  all: try (destruct (done s); simpl in *;
            intuition (try discriminate; try congruence); fail).
  all: try (rewrite ?teardown_events_app, ?teardown_events_same_log, Hl;
       cbn [List.filter is_teardown]).
  all: try (assert (Hholder : mutex s = Some t) by (apply Hmt; reflexivity);
            rewrite Hholder in * ).
  all: try (assert (Hnd : done s = false) by (apply Hct; reflexivity);
            rewrite Hnd in * ).
  all: rewrite ?set_pc_same, ?Hpc; try reflexivity.
  - destruct (done s); [reflexivity|].
    destruct (mutex s) as [h|] eqn:Hmx; [|reflexivity].
    rewrite set_pc_other; [reflexivity|].
    intros ->. destruct Hmt as [Hx _]. specialize (Hx eq_refl). discriminate.
  - now destruct (done s).
  - intros Hin. assert (Hh : holds (pcs s t') = true)
      by (destruct (pcs s t'); simpl in *; congruence).
    apply H in Hh. congruence.
Qed.

Lemma reachable_invariant (s : state) : reachable s -> invariant s.
Proof.
  induction 1 as [|s s' _ IH Hstep]; [apply invariant_init|].
  destruct Hstep as [t failed s s' Hc | t s s' Ha].
  - eapply invariant_complete; eassumption.
  - eapply invariant_advance; eassumption.
Qed.

Lemma holder_can_advance (t : task) (s : state) :
  holds (pcs s t) = true -> advance t s <> None.
Proof. unfold advance. destruct (pcs s t); simpl; congruence. Qed.

Lemma step_decreases_measure (s s' : state) :
  step s s' -> (measure s' < measure s)%nat.
Proof.
  intros [t failed s0 s0' Hc | t s0 s0' Ha].
  - unfold complete in Hc. destruct (pcs s0 t) eqn:Hpc; try discriminate.
    injection Hc as <-. unfold measure. cbn [pcs].
    destruct t; unfold set_pc; simpl; rewrite Hpc; simpl; lia.
  - unfold advance in Ha.
    destruct (pcs s0 t) eqn:Hpc; try discriminate;
      try (destruct (mutex s0); try discriminate);
      injection Ha as <-; unfold measure; cbn [pcs];
      destruct t, (done s0); unfold set_pc; simpl; rewrite Hpc; simpl; lia.
Qed.


Lemma run_reachable (schedule : list action) (s s' : state) :
  reachable s -> run schedule s = Some s' -> reachable s'.
Proof.
  revert s. induction schedule as [|a rest IH]; intros s Hs Hrun.
  - injection Hrun as <-. exact Hs.
  - simpl in Hrun. destruct (perform a s) as [s1|] eqn:Hp; [|discriminate].
    apply (IH s1); [|exact Hrun].
    apply (reachable_step s s1 Hs).
    destruct a as [t failed|t]; simpl in Hp.
    + exact (step_complete t failed s s1 Hp).
    + exact (step_advance t s s1 Hp).
Qed.

(** X28. One completion is enough, whichever it is: when a single
    goroutine's event happens and that goroutine runs on, the channel is
    closed and the disconnect logged while the other two are still at
    work. *)
Lemma single_completion_tears_down (t : task) (failed : bool) :
  exists s : state,
    run (Complete t failed :: repeat (Advance t) 7) init = Some s /\
    teardown_events s = [ChannelClose; LogDisconnect] /\
    pcs s t = Finished /\
    forall t' : task, t' <> t -> pcs s t' = Working.
Proof.
  destruct t, failed; eexists;
    (split; [vm_compute; reflexivity|]);
    (split; [reflexivity|]); (split; [reflexivity|]);
    intros t' Hne; destruct t'; try reflexivity; contradiction.
Qed.

End TeardownProofs.

(** ** Further properties: the request handlers *)

Ltac unfold_handlers :=
  unfold handle_request, dispatch, handle_shell, handle_exec, handle_pty_req,
    handle_window_change, handle_env, write_banner, launch_command,
    ParseDims, index, slice_range, slice_from in *.

Lemma trace_same_inv (t evs : list event) : t = t ++ evs -> [] = evs.
Proof.
  intros H. apply (app_inv_head t). now rewrite app_nil_r.
Qed.

(** From [t ++ l = t ++ evs] or [t = t ++ evs] to [l = evs]. *)
Ltac solve_events H :=
  simpl in H; flatten_trace;
  first [ apply app_inv_head in H | apply trace_same_inv in H ];
  subst.

(** X1. Whatever the request, its handling sends at most one reply, and
    sends none when the request did not ask for one. *)
Theorem at_most_one_reply_and_only_when_wanted :
  forall (X : Externals) (c : Client) (req : Request) (st : State)
         (evs : list event),
    trace (snd (handle_request X c req st)) = trace st ++ evs ->
    replies evs = [] \/
    (WantReply req = true /\ exists ok : bool, replies evs = [ok]).
Proof.
  intros X c req st evs Htr.
  destruct (handle_request X c req st) as [r st'] eqn:H.
  unfold_handlers. unfold_monad.
  repeat break_match_in H.
  all: inversion H; subst; clear H; cbn [snd] in Htr.
  all: solve_events Htr.
  all: simpl; eauto.
Qed.

(** X6. The proxy goroutines are spawned by a [shell] request whose command
    started, all three of them in the order of the source, and by nothing
    else. *)
Theorem goroutines_only_after_successful_start :
  forall (X : Externals) (c : Client) (req : Request) (st : State)
         (evs : list event),
    trace (snd (handle_request X c req st)) = trace st ++ evs ->
    spawned evs = [] \/
    (spawned evs = [CopyPtyToChannel; CopyChannelToPty; WaitProcess] /\
     ReqType req = "shell" /\
     exists (cmd : Cmd) (tr : list event),
       started evs = [cmd] /\ Start X tr cmd = GoOk tt).
Proof.
  intros X c req st evs Htr.
  destruct (handle_request X c req st) as [r st'] eqn:H.
  unfold_handlers. unfold_monad.
  repeat break_match_in H.
  all: inversion H; subst; clear H; cbn [snd] in Htr.
  all: solve_events Htr.
  all: simpl; try (left; reflexivity).
  all: right; split; [reflexivity|].
  all: repeat match goal with
              | H : String.eqb _ _ = true |- _ => apply String.eqb_eq in H
              | H : Start _ _ _ = GoOk ?u |- _ => destruct u
              end.
  all: split; [assumption|]; do 2 eexists; split; [reflexivity|eassumption].
Qed.

(** X5. A [shell] request with an empty payload is never answered with a
    decline: either no reply is sent, or the reply is an accept and the
    goroutines were spawned. *)
Theorem empty_shell_request_is_never_declined :
  forall (X : Externals) (c : Client) (want : bool) (payload : slice)
         (st : State) (evs : list event),
    len payload = 0%nat ->
    trace (snd (handle_request X c
                  {| ReqType := "shell"; WantReply := want;
                     Payload := payload |} st)) = trace st ++ evs ->
    replies evs = [] \/ (replies evs = [true] /\ spawned evs <> []).
Proof.
  intros X c want payload st evs Hlen Htr.
  match type of Htr with trace (snd ?run) = _ =>
    destruct run as [r st'] eqn:H end.
  unfold_handlers.
  cbn [String.eqb Ascii.eqb Bool.eqb ReqType WantReply Payload] in H.
  rewrite Hlen in H. cbn [Nat.eqb negb] in H.
  unfold_monad.
  repeat break_match_in H.
  all: inversion H; subst; clear H; cbn [snd] in Htr.
  all: solve_events Htr.
  all: simpl; try (left; reflexivity).
  all: right; split; [reflexivity|discriminate].
Qed.

(** X7. When no command can be started, a [shell] request with an empty
    payload gets no reply at all, wanted or not, and no goroutine is
    spawned. *)
Theorem shell_unanswered_when_start_fails :
  forall (X : Externals) (c : Client) (want : bool) (payload : slice)
         (st : State) (evs : list event),
    len payload = 0%nat ->
    (forall (tr : list event) (cmd : Cmd), Start X tr cmd <> GoOk tt) ->
    trace (snd (handle_request X c
                  {| ReqType := "shell"; WantReply := want;
                     Payload := payload |} st)) = trace st ++ evs ->
    replies evs = [] /\ spawned evs = [].
Proof.
  intros X c want payload st evs Hlen Hfail Htr.
  match type of Htr with trace (snd ?run) = _ =>
    destruct run as [r st'] eqn:H end.
  unfold_handlers.
  cbn [String.eqb Ascii.eqb Bool.eqb ReqType WantReply Payload] in H.
  rewrite Hlen in H. cbn [Nat.eqb negb] in H.
  unfold_monad.
  repeat break_match_in H.
  all: inversion H; subst; clear H; cbn [snd] in Htr.
  all: solve_events Htr.
  all: simpl; try (split; reflexivity).
  all: exfalso;
    match goal with H : Start _ _ _ = GoOk ?u |- _ =>
      destruct u; exact (Hfail _ _ H) end.
Qed.

(** X8. When the query for a running container fails, the [shell] request
    ends there: a warning is logged, nothing is started, the banner is not
    written and no reply is sent. *)
Theorem shell_unanswered_when_query_fails :
  forall (X : Externals) (c : Client) (want : bool) (payload : slice)
         (st : State) (cfg : ClientConfig.t) (err : string),
    len payload = 0%nat ->
    heap st !! Config c = Some cfg ->
    ClientConfig.IsLocal cfg = false ->
    Server.NoJoin (server st) = false ->
    CombinedOutput X
      (trace st ++ [ELog LvlDebug "HandleChannelRequests.req shell" []])
      (query_command X cfg) = GoErr err ->
    handle_request X c
      {| ReqType := "shell"; WantReply := want; Payload := payload |} st
    = (Ok tt,
       record_events
         [ELog LvlDebug "HandleChannelRequests.req shell" [];
          ECombinedOutput (query_command X cfg);
          ELog LvlWarn "docker ps ... failed: %v" []] st).
Proof.
  intros X c want payload st cfg err Hlen Hcfg Hlocal Hjoin Hout.
  match goal with |- ?run = _ => destruct run as [r st'] eqn:H end.
  unfold_handlers.
  cbn [String.eqb Ascii.eqb Bool.eqb ReqType WantReply Payload] in H.
  rewrite Hlen in H. cbn [Nat.eqb negb] in H.
  unfold_monad.
  repeat break_match_in H.
  all: inversion H; subst; clear H; simpl in *.
  all: try congruence.
  all: flatten_trace; repeat f_equal; congruence.
Qed.

(** X9. A [shell] request on a session marked local queries nothing and
    starts [/bin/bash] without arguments and without an environment of its
    own. *)
Theorem local_session_starts_bash_without_docker :
  forall (X : Externals) (c : Client) (want : bool) (payload : slice)
         (st : State) (cfg : ClientConfig.t) (evs : list event),
    len payload = 0%nat ->
    heap st !! Config c = Some cfg ->
    ClientConfig.IsLocal cfg = true ->
    trace (snd (handle_request X c
                  {| ReqType := "shell"; WantReply := want;
                     Payload := payload |} st)) = trace st ++ evs ->
    queried evs = [] /\
    started evs =
      [ {| cmd_Path := "/bin/bash"; cmd_Args := []; cmd_Env := None |} ].
Proof.
  intros X c want payload st cfg evs Hlen Hcfg Hlocal Htr.
  match type of Htr with trace (snd ?run) = _ =>
    destruct run as [r st'] eqn:H end.
  unfold_handlers.
  cbn [String.eqb Ascii.eqb Bool.eqb ReqType WantReply Payload] in H.
  rewrite Hlen in H. cbn [Nat.eqb negb] in H.
  unfold_monad.
  repeat break_match_in H.
  all: inversion H; subst; clear H; simpl in *.
  all: try congruence.
  all: solve_events Htr.
  all: split; reflexivity.
Qed.

(** X10. With reuse disabled ([NoJoin]) a non-local [shell] request queries
    nothing and starts [docker run ...] with the session environment. *)
Theorem nojoin_session_always_creates :
  forall (X : Externals) (c : Client) (want : bool) (payload : slice)
         (st : State) (cfg : ClientConfig.t) (evs : list event),
    len payload = 0%nat ->
    heap st !! Config c = Some cfg ->
    ClientConfig.IsLocal cfg = false ->
    Server.NoJoin (server st) = true ->
    trace (snd (handle_request X c
                  {| ReqType := "shell"; WantReply := want;
                     Payload := payload |} st)) = trace st ++ evs ->
    queried evs = [] /\
    exists tail : list string,
      started evs =
        [ {| cmd_Path := "docker"; cmd_Args := "run" :: tail;
             cmd_Env := Some (EnvList X (ClientConfig.Env cfg)) |} ].
Proof.
  intros X c want payload st cfg evs Hlen Hcfg Hlocal Hjoin Htr.
  match type of Htr with trace (snd ?run) = _ =>
    destruct run as [r st'] eqn:H end.
  unfold_handlers.
  cbn [String.eqb Ascii.eqb Bool.eqb ReqType WantReply Payload] in H.
  rewrite Hlen in H. cbn [Nat.eqb negb] in H.
  unfold_monad.
  repeat break_match_in H.
  all: inversion H; subst; clear H; simpl in *.
  all: try congruence.
  all: solve_events Htr.
  all: split; [reflexivity|].
  all: repeat match goal with H : Some _ = Some _ |- _ =>
         injection H as <- end.
  all: cbn [started]; rewrite create_args_spelled_out;
    eexists; reflexivity.
Qed.


(** X4. A request of a type other than the five of the [switch] is logged
    and, when it asks for a reply, declined; nothing else happens. *)
Theorem unknown_request_type_is_declined :
  forall (X : Externals) (c : Client) (req : Request) (st : State),
    known_type (ReqType req) = false ->
    handle_request X c req st =
      (Ok tt,
       record_events
         (ELog LvlDebug "Unhandled request type: %q: %v" [ReqType req] ::
          (if WantReply req
           then [ELog LvlDebug "Declining %s request..." [ReqType req];
                 EReply false]
           else [])) st).
Proof.
  intros X c req st Hty. unfold known_type in Hty.
  repeat (apply orb_false_elim in Hty; destruct Hty as [Hty ?]).
  unfold handle_request, dispatch.
  repeat match goal with H : String.eqb _ _ = false |- _ =>
    rewrite H; clear H end.
  unfold logf, emit, bind, ret. cbn [negb].
  destruct (WantReply req); rewrite ?record_events_app; reflexivity.
Qed.

(** ** The banner *)

Lemma append_cons (ch : ascii) (a b : string) :
  String ch a +:+ b = String ch (a +:+ b).
Proof. reflexivity. Qed.

Lemma append_empty (a : string) : EmptyString +:+ a = a.
Proof. reflexivity. Qed.

Lemma append_assoc3 (a b c : string) : (a +:+ b) +:+ c = a +:+ (b +:+ c).
Proof.
  induction a as [|ch a IH]; [reflexivity|].
  rewrite !append_cons. now rewrite IH.
Qed.

Lemma Replace_append (a b : string) (old : ascii) (new : string) :
  Replace (a +:+ b) old new = Replace a old new +:+ Replace b old new.
Proof.
  induction a as [|ch a IH]; [reflexivity|].
  rewrite append_cons. cbn [Replace]. rewrite IH.
  destruct (Ascii.eqb ch old); [|reflexivity].
  now rewrite append_assoc3.
Qed.

(** Dropping the carriage returns from a text in which one was put after
    every line feed, carriage returns dropped before, gives the text
    without its carriage returns. *)
Lemma strip_after_normalise (b : string) :
  Replace
    (Replace (Replace b (ascii_of_nat 13) "") (ascii_of_nat 10) (LF +:+ CR))
    (ascii_of_nat 13) ""
  = Replace b (ascii_of_nat 13) "".
Proof.
  induction b as [|ch b IH]; [reflexivity|].
  cbn [Replace].
  destruct (Ascii.eqb ch (ascii_of_nat 13)) eqn:Hcr.
  - rewrite append_empty. exact IH.
  - cbn [Replace].
    destruct (Ascii.eqb ch (ascii_of_nat 10)) eqn:Hlf.
    + apply Ascii.eqb_eq in Hlf. subst ch.
      change (LF +:+ CR) with
        (String (ascii_of_nat 10) (String (ascii_of_nat 13) EmptyString))
        in *.
      rewrite !append_cons, append_empty.
      cbn [Replace]. rewrite Hcr.
      change (Ascii.eqb (ascii_of_nat 13) (ascii_of_nat 13)) with true.
      cbv iota. rewrite append_empty. now rewrite IH.
    + cbn [Replace]. rewrite Hcr. now rewrite IH.
Qed.

(** X11. The banner: nothing is written when it is empty; otherwise one
    text is written, which without its carriage returns is the banner
    without its carriage returns plus a final line feed, and in which the
    carriage returns are exactly one after every line feed (normalising
    the written text again gives the same text). *)
Theorem banner_is_written_with_normalised_line_ends :
  forall (st : State),
    let banner := Server.Banner (server st) in
    write_banner st =
      (Ok tt,
       if String.eqb banner "" then st
       else record_events [EChanWrite (banner_text banner)] st) /\
    Replace (banner_text banner) (ascii_of_nat 13) ""
      = Replace banner (ascii_of_nat 13) "" +:+ LF /\
    Replace (Replace (banner_text banner) (ascii_of_nat 13) "")
      (ascii_of_nat 10) (LF +:+ CR)
      = banner_text banner.
Proof.
  intros st banner.
  assert (E1 : Replace (LF +:+ CR) (ascii_of_nat 13) "" = LF) by reflexivity.
  assert (E2 : Replace LF (ascii_of_nat 10) (LF +:+ CR) = LF +:+ CR)
    by reflexivity.
  assert (Hstrip : Replace (banner_text banner) (ascii_of_nat 13) ""
                   = Replace banner (ascii_of_nat 13) "" +:+ LF).
  { unfold banner_text.
    now rewrite Replace_append, strip_after_normalise, E1. }
  split; [|split].
  - unfold write_banner, get, bind, emit, ret, banner_text. fold banner.
    destruct (String.eqb banner ""); reflexivity.
  - exact Hstrip.
  - rewrite Hstrip, Replace_append, E2. reflexivity.
Qed.

(** ** Further properties: payloads *)

Lemma index_beyond_length (p : slice) (i : Z) :
  Z.of_nat (len p) <= i -> index p i = Panicked IndexOutOfRange.
Proof.
  intros H. unfold index.
  replace (i <? Z.of_nat (len p)) with false by (symmetry; apply Z.ltb_ge; lia).
  now rewrite andb_false_r.
Qed.

(** X12. An [env] or [pty-req] request whose payload has fewer than four
    bytes panics on [Payload[3]], with nothing changed and nothing sent. *)
Theorem payload_shorter_than_four_bytes_panics :
  forall (X : Externals) (c : Client) (want : bool) (payload : slice)
         (st : State) (ty : string),
    ty = "env" \/ ty = "pty-req" ->
    (len payload <= 3)%nat ->
    handle_request X c
      {| ReqType := ty; WantReply := want; Payload := payload |} st
    = (Panicked IndexOutOfRange, st).
Proof.
  intros X c want payload st ty Hty Hlen.
  unfold handle_request, dispatch, handle_env, handle_pty_req.
  destruct Hty as [-> | ->];
    cbn [String.eqb Ascii.eqb Bool.eqb ReqType WantReply Payload];
    unfold bind at 1 2; unfold lift at 1;
    rewrite index_beyond_length by lia; reflexivity.
Qed.

(** X15. An [env] request laid out as three bytes, the key length, the key,
    three bytes, the value length, the value, with [K+8+V] below 256: the
    session environment maps exactly the declared key to exactly the
    declared value afterwards, and yet the reply, when one is wanted, is
    false, since the [env] arm never sets [ok]. *)
Theorem env_request_stores_pair_but_replies_false :
  forall (X : Externals) (c : Client) (want : bool) (p : slice)
         (st : State) (cfg : ClientConfig.t)
         (h key pad value rest : list byte) (kb vb : byte),
    slice_wf p ->
    elements_of p = h ++ kb :: key ++ pad ++ vb :: value ++ rest ->
    length h = 3%nat -> length pad = 3%nat ->
    byte_val kb = Z.of_nat (length key) ->
    byte_val vb = Z.of_nat (length value) ->
    (length key + 8 + length value < 256)%nat ->
    heap st !! Config c = Some cfg ->
    exists (st' : State) (evs : list event),
      handle_request X c
        {| ReqType := "env"; WantReply := want; Payload := p |} st
        = (Ok tt, st') /\
      heap st' =
        <[Config c :=
            ClientConfig.set_Env
              (insert (string_of_list_byte key) (string_of_list_byte value))
              cfg]> (heap st) /\
      server st' = server st /\ winsize st' = winsize st /\
      trace st' = trace st ++ evs /\
      replies evs = if want then [false] else [].
Proof.
  intros X c want p st cfg h key pad value rest kb vb.
  apply env_in_range.
Qed.

(** ** Further properties: clients and the registry *)


(** X19. For an identity that is registered, [NewClient] hands out the
    registered record whatever user the connection asks for: image name,
    remote user, local flag and command stay those of the record, its
    environment gets the defaults applied, and the registry is unchanged. *)
Theorem later_connection_gets_the_registered_record :
  forall (X : Externals) (conn : ServerConn) (st : State) (p : loc)
         (cfg : ClientConfig.t) (host port : string) (rest : list string),
    Server.ClientConfigs (server st) !! conn_RemoteAddr conn = Some p ->
    heap st !! p = Some cfg ->
    Split (conn_RemoteAddr conn) ":"%char = host :: port :: rest ->
    exists (c : Client) (st' : State) (cfg' : ClientConfig.t),
      NewClient X conn st = (Ok c, st') /\
      Config c = p /\
      heap st' !! p = Some cfg' /\
      ClientConfig.ImageName cfg' = ClientConfig.ImageName cfg /\
      ClientConfig.RemoteUser cfg' = ClientConfig.RemoteUser cfg /\
      ClientConfig.IsLocal cfg' = ClientConfig.IsLocal cfg /\
      ClientConfig.Command cfg' = ClientConfig.Command cfg /\
      ClientConfig.Env cfg' = ApplyDefaults X (ClientConfig.Env cfg) /\
      Server.ClientConfigs (server st') = Server.ClientConfigs (server st).
Proof.
  intros X conn st p cfg host port rest Hreg Hcfg Hsplit.
  destruct (NewClient_again X conn st p cfg host port rest Hreg Hcfg Hsplit)
    as (c & st' & Hrun & Hp & Hsame & Hheap).
  exists c, st', (ClientConfig.set_Env (ApplyDefaults X) cfg).
  repeat split; assumption.
Qed.


(** ** Further properties: session channels *)

Lemma same_store_record (evs : list event) (st : State) :
  same_store st (record_events evs st).
Proof. repeat split. Qed.

(** The four ways [HandleChannel] can go. *)
Lemma HandleChannel_cases (X : Externals) (O : list event -> go_result nat)
    (c : Client) (nc : NewChannel) (st : State) :
  (ChannelType nc <> "session" /\
   HandleChannel X O c nc st =
     (Ok (c, ChannelRejected),
      record_events
        [ELog LvlDebug "Unknown channel type: %s" [ChannelType nc]] st)) \/
  (exists err, ChannelType nc = "session" /\ Accept nc = GoErr err /\
   HandleChannel X O c nc st =
     (Ok (c, AcceptFailed err),
      record_events [ELog LvlError "newChannel.Accept failed: %v" []] st)) \/
  (exists reqs, ChannelType nc = "session" /\ Accept nc = GoOk reqs /\
   exists st1,
     st1 = record_events
             [ELog LvlDebug
                "HandleChannel.channel (client=%d channel=%d): %v" [];
              ELog LvlDebug "Creating pty..." []] st /\
     ((exists err, O (trace st1) = GoErr err /\
       HandleChannel X O c nc st =
         (Ok (set_ChannelIdx (ChannelIdx c + 1) c, PtyFailed),
          record_events [ELog LvlError "pty.Open failed: %v" []] st1)) \/
      (exists fd, O (trace st1) = GoOk fd /\
       let c' := set_Pty fd (set_ChannelIdx (ChannelIdx c + 1) c) in
       HandleChannel X O c nc st =
         match HandleChannelRequests X c' reqs st1 with
         | (Ok _, st2) => (Ok (c', ChannelServed), st2)
         | (Panicked pn, st2) => (Panicked pn, st2)
         end))).
Proof.
  unfold HandleChannel.
  destruct (String.eqb (ChannelType nc) "session") eqn:Hty; cbn [negb].
  - apply String.eqb_eq in Hty. right.
    destruct (Accept nc) as [reqs|err] eqn:Hacc.
    + right. exists reqs. split; [exact Hty|]. split; [reflexivity|].
      eexists. split; [reflexivity|].
      unfold logf, emit, bind, get, ret. cbv beta iota.
      rewrite !record_events_app. cbn [app].
      match goal with |- context [O ?tr] =>
        destruct (O tr) as [fd|err] eqn:Hpty end.
      * right. exists fd. split; [reflexivity|]. cbv zeta.
        destruct (HandleChannelRequests X _ reqs _) as [[u|pn] st2];
          reflexivity.
      * left. exists err. split; [reflexivity|].
        now rewrite record_events_app.
    + left. exists err. split; [exact Hty|]. split; [reflexivity|].
      reflexivity.
  - apply String.eqb_neq in Hty. left. split; [exact Hty|]. reflexivity.
Qed.



(** X22. Channels of a type other than [session] are all rejected, whatever
    they carry: the client and the store are unchanged, no reply is sent,
    nothing is started, and the loop returns no error. *)
Theorem channels_of_other_types_are_all_rejected :
  forall (X : Externals) (O : list event -> go_result nat)
         (chans : list NewChannel) (c : Client) (st : State),
    Forall (fun nc => ChannelType nc <> "session") chans ->
    exists (st' : State) (evs : list event),
      HandleChannels X O c chans st =
        (Ok (c, List.map (fun _ => ChannelRejected) chans, None), st') /\
      same_store st st' /\
      trace st' = trace st ++ evs /\
      replies evs = [] /\ started evs = [].
Proof.
  intros X O chans. induction chans as [|nc rest IH]; intros c st Hall.
  - exists st, []. rewrite app_nil_r. repeat split.
  - inversion Hall as [|? ? Hnc Hrest]; subst.
    destruct (HandleChannel_cases X O c nc st)
      as [[_ Hc] | [(err & Hty & _) | (reqs & Hty & _)]];
      try contradiction.
    cbn [HandleChannels]. unfold bind at 1. rewrite Hc.
    cbn [snd fst returned_error].
    destruct (IH c (record_events
                      [ELog LvlDebug "Unknown channel type: %s"
                         [ChannelType nc]] st) Hrest)
      as (st' & evs & Hrun & Hsame & Htr & Hrep & Hst).
    unfold bind. rewrite Hrun. cbn [fst snd ret].
    exists st', (ELog LvlDebug "Unknown channel type: %s" [ChannelType nc]
                 :: evs).
    split; [reflexivity|]. split; [exact Hsame|].
    split; [rewrite Htr; cbn [trace record_events];
            now rewrite <- app_assoc|].
    split; [exact Hrep | exact Hst].
Qed.

(** X23. The channel loop stops at the first session channel whose [Accept]
    fails and returns that error: the channels after it are not looked
    at. *)
Theorem channel_loop_stops_at_first_failed_accept :
  forall (X : Externals) (O : list event -> go_result nat)
         (pre post : list NewChannel) (bad : NewChannel) (err : string)
         (c c1 : Client) (os : list channel_outcome) (st st1 : State),
    HandleChannels X O c pre st = (Ok (c1, os, None), st1) ->
    ChannelType bad = "session" ->
    Accept bad = GoErr err ->
    HandleChannels X O c (pre ++ bad :: post) st =
      (Ok (c1, os ++ [AcceptFailed err], Some err),
       record_events [ELog LvlError "newChannel.Accept failed: %v" []] st1).
Proof.
  intros X O pre post bad err.
  induction pre as [|nc pre IH]; intros c c1 os st st1 Hpre Hty Hacc.
  - injection Hpre as <- <- <-. cbn [app HandleChannels].
    destruct (HandleChannel_cases X O c bad st)
      as [[Hne _] | [(e & _ & He & Hc) | (reqs & _ & Hok & _)]];
      [contradiction | | congruence].
    rewrite Hacc in He. injection He as <-.
    unfold bind. rewrite Hc. reflexivity.
  - cbn [app HandleChannels] in *. unfold bind at 1 in Hpre.
    unfold bind at 1.
    destruct (HandleChannel X O c nc st) as [[[c2 o]|pn] st2];
      [|discriminate].
    cbn [fst snd] in *.
    destruct (returned_error o) as [e|]; [discriminate|].
    unfold bind in Hpre. unfold bind.
    destruct (HandleChannels X O c2 pre st2) as [[[[c3 os3] e3]|pn] st3] eqn:Hrec;
      [|discriminate].
    cbn [fst snd ret] in Hpre. injection Hpre as <- <- -> <-.
    rewrite (IH c2 c3 os3 st2 st3 Hrec Hty Hacc). reflexivity.
Qed.


(** ** Further properties: teardown *)

Section TeardownMore.

Import Teardown.

(** X25. In every reachable state at most one goroutine is between locking
    and unlocking the mutex of the [sync.Once], and it is the one the mutex
    records. *)
Theorem mutex_is_held_by_one_goroutine_at_most :
  forall (s : state) (t1 t2 : task),
    reachable s ->
    holds (pcs s t1) = true -> holds (pcs s t2) = true ->
    t1 = t2 /\ mutex s = Some t1.
Proof.
  intros s t1 t2 Hreach H1 H2.
  destruct (reachable_invariant s Hreach) as [Hm _ _ _].
  apply Hm in H1. apply Hm in H2. split; [congruence|exact H1].
Qed.

(** X26. No deadlock: in every reachable state in which some goroutine is
    inside [once.Do], some goroutine has a step to take. *)
Theorem goroutines_in_once_never_deadlock :
  forall (s : state) (t : task),
    reachable s ->
    pcs s t <> Working -> pcs s t <> Finished ->
    exists (t' : task) (s' : state), advance t' s = Some s'.
Proof.
  intros s t Hreach Hw Hf.
  destruct (reachable_invariant s Hreach) as [Hm _ _ _].
  destruct (advance t s) as [s'|] eqn:Hadv; [eauto|].
  unfold advance in Hadv.
  destruct (pcs s t) eqn:Hpc; try discriminate; try congruence.
  destruct (mutex s) as [h|] eqn:Hmx; [|discriminate].
  pose proof (proj1 (Hm h) eq_refl) as Hh.
  destruct (advance h s) as [s'|] eqn:Hadvh; [eauto|].
  exfalso. exact (holder_can_advance h s Hh Hadvh).
Qed.

Lemma run_decreases_measure (schedule : list action) (s s' : state) :
  run schedule s = Some s' ->
  (length schedule + measure s' <= measure s)%nat.
Proof.
  revert s. induction schedule as [|a rest IH]; intros s Hrun.
  - injection Hrun as <-. simpl. lia.
  - simpl in Hrun. destruct (perform a s) as [s1|] eqn:Hp; [|discriminate].
    specialize (IH s1 Hrun).
    assert (Hstep : step s s1).
    { destruct a as [t failed|t]; simpl in Hp.
      - exact (step_complete t failed s s1 Hp).
      - exact (step_advance t s s1 Hp). }
    apply step_decreases_measure in Hstep. simpl. lia.
Qed.

(** X27. Whatever the interleaving, the three goroutines make at most 24
    moves in all. *)
Theorem every_schedule_ends_within_24_moves :
  forall (schedule : list action) (s : state),
    run schedule init = Some s -> (length schedule <= 24)%nat.
Proof.
  intros schedule s Hrun.
  apply run_decreases_measure in Hrun.
  change (measure init) with 24%nat in Hrun. lia.
Qed.

End TeardownMore.

(** ** The theorems at work on concrete sessions *)


Lemma shell_accepted_only_if_empty_payload_and_started_witness :
  let run := handle_request Fixture.quiet Fixture.client Fixture.shell
               Fixture.accepted in
  let evs := skipn (length (trace Fixture.accepted)) (trace (snd run)) in
  In (EReply true) evs /\
  len (Payload Fixture.shell) = 0%nat /\
  exists (cmd : Cmd) (tr : list event),
    started evs = [cmd] /\ Start Fixture.quiet tr cmd = GoOk tt.
Proof.
  intros run evs.
  assert (Hin : In (EReply true) evs) by (vm_compute; tauto).
  split; [exact Hin|].
  apply (proj1 (shell_accepted_only_if_empty_payload_and_started
                  Fixture.quiet Fixture.client true (slice_of [])
                  Fixture.accepted (snd run) (fst run) evs
                  eq_refl eq_refl)).
  exact Hin.
Defined.

Lemma shell_joins_running_container_or_creates_witness :
  exists (r : result unit) (st' : State) (evs : list event) (cmd : Cmd),
    handle_request Fixture.busy Fixture.client Fixture.shell Fixture.accepted
      = (r, st') /\
    started evs = [cmd] /\
    cmd_Args cmd = ["exec"; "-it"; "f3a9c0ffee"; "/bin/sh"].
Proof.
  destruct (shell_joins_running_container_or_creates
              Fixture.busy Fixture.client true (slice_of [])
              Fixture.accepted
              (seeded_config Fixture.busy Fixture.srv Fixture.conn)
              ("f3a9c0ffee" +:+ LF)
              eq_refl eq_refl eq_refl eq_refl eq_refl)
    as (_ & r & st' & evs & cmd & Hrun & _ & _ & Hstarted & _ & Hjoin & _).
  exists r, st', evs, cmd.
  split; [exact Hrun|]. split; [exact Hstarted|].
  apply Hjoin. vm_compute. discriminate.
Defined.

Lemma registry_seeds_defaults_then_shares_record_witness :
  exists (c1 c2 : Client) (st1 st2 : State) (seeded : ClientConfig.t),
    NewClient Fixture.quiet Fixture.conn Fixture.st0 = (Ok c1, st1) /\
    heap st1 !! Config c1 = Some seeded /\
    ClientConfig.ImageName seeded = "alpine/test" /\
    NewClient Fixture.quiet Fixture.conn2 st1 = (Ok c2, st2) /\
    Config c2 = Config c1.
Proof.
  destruct (registry_seeds_defaults_then_shares_record
              Fixture.quiet Fixture.conn Fixture.st0
              "10.0.0.7" "50122" []
              ltac:(vm_compute; reflexivity) ltac:(vm_compute; reflexivity))
    as (c1 & st1 & seeded & Hrun & Hreg & Hheap & Himage & _ & _ & _ & Hnext).
  destruct (Hnext Fixture.conn2 st1 seeded eq_refl Hreg Hheap)
    as (c2 & st2 & Hrun2 & Hsame & _).
  exists c1, c2, st1, st2, seeded.
  repeat split; assumption.
Defined.

(** ** The further properties at work on concrete sessions *)

Ltac by_computation := vm_compute; reflexivity.

Lemma slice_of_wf (l : list byte) : slice_wf (slice_of l).
Proof. unfold slice_wf, cap, slice_of. simpl. lia. Qed.

Lemma at_most_one_reply_and_only_when_wanted_witness :
  let req := Fixture.request "env" true (Scenario.env_payload "LANG" "C") in
  let run := handle_request Fixture.quiet Fixture.client req
               Fixture.accepted in
  replies (Scenario.new_events Fixture.accepted run) = [false].
Proof.
  intros req run.
  destruct (at_most_one_reply_and_only_when_wanted
              Fixture.quiet Fixture.client req Fixture.accepted
              (Scenario.new_events Fixture.accepted run)
              ltac:(by_computation)) as [H | (_ & ok & H)];
    by_computation.
Defined.

Lemma goroutines_only_after_successful_start_witness :
  let run := handle_request Fixture.quiet Fixture.client Fixture.shell
               Fixture.accepted in
  let evs := Scenario.new_events Fixture.accepted run in
  spawned evs = [CopyPtyToChannel; CopyChannelToPty; WaitProcess] /\
  exists (cmd : Cmd) (tr : list event),
    started evs = [cmd] /\ Start Fixture.quiet tr cmd = GoOk tt.
Proof.
  intros run evs.
  destruct (goroutines_only_after_successful_start
              Fixture.quiet Fixture.client Fixture.shell Fixture.accepted
              evs ltac:(by_computation)) as [H | (H & _ & Hs)].
  - vm_compute in H. discriminate H.
  - split; [exact H | exact Hs].
Defined.

Lemma empty_shell_request_is_never_declined_witness :
  let run := handle_request Scenario.no_start Fixture.client Fixture.shell
               Fixture.accepted in
  replies (Scenario.new_events Fixture.accepted run) = [].
Proof.
  intros run.
  destruct (empty_shell_request_is_never_declined
              Scenario.no_start Fixture.client true (slice_of [])
              Fixture.accepted (Scenario.new_events Fixture.accepted run)
              eq_refl ltac:(by_computation)) as [H | [H _]].
  - exact H.
  - vm_compute in H. discriminate H.
Defined.

Lemma shell_unanswered_when_start_fails_witness :
  let run := handle_request Scenario.no_start Fixture.client Fixture.shell
               Fixture.accepted in
  replies (Scenario.new_events Fixture.accepted run) = [] /\
  spawned (Scenario.new_events Fixture.accepted run) = [].
Proof.
  intros run.
  apply (shell_unanswered_when_start_fails
           Scenario.no_start Fixture.client true (slice_of [])
           Fixture.accepted).
  - reflexivity.
  - intros tr cmd. vm_compute. discriminate.
  - by_computation.
Defined.

Lemma shell_unanswered_when_query_fails_witness :
  replies
    (Scenario.new_events Fixture.accepted
       (handle_request Scenario.no_docker Fixture.client Fixture.shell
          Fixture.accepted)) = [].
Proof.
  unfold Fixture.shell, Fixture.request.
  rewrite (shell_unanswered_when_query_fails
             Scenario.no_docker Fixture.client true (slice_of [])
             Fixture.accepted Scenario.record
             "cannot connect to the docker daemon"
             eq_refl ltac:(by_computation) eq_refl eq_refl eq_refl).
  by_computation.
Defined.

Lemma local_session_starts_bash_without_docker_witness :
  let st := Scenario.accepted_by Scenario.local_srv in
  let run := handle_request Fixture.quiet Fixture.client Fixture.shell st in
  queried (Scenario.new_events st run) = [] /\
  started (Scenario.new_events st run) =
    [ {| cmd_Path := "/bin/bash"; cmd_Args := []; cmd_Env := None |} ].
Proof.
  intros st run.
  apply (local_session_starts_bash_without_docker
           Fixture.quiet Fixture.client true (slice_of []) st
           (seeded_config Fixture.quiet Scenario.local_srv Fixture.conn)).
  - reflexivity.
  - by_computation.
  - by_computation.
  - by_computation.
Defined.

Lemma nojoin_session_always_creates_witness :
  let st := Scenario.accepted_by Scenario.nojoin_srv in
  let run := handle_request Fixture.busy Fixture.client Fixture.shell st in
  queried (Scenario.new_events st run) = [] /\
  exists tail : list string,
    started (Scenario.new_events st run) =
      [ {| cmd_Path := "docker"; cmd_Args := "run" :: tail;
           cmd_Env := Some [] |} ].
Proof.
  intros st run.
  apply (nojoin_session_always_creates
           Fixture.busy Fixture.client true (slice_of []) st
           Scenario.record).
  - reflexivity.
  - by_computation.
  - by_computation.
  - by_computation.
  - by_computation.
Defined.


Lemma unknown_request_type_is_declined_witness :
  replies
    (Scenario.new_events Fixture.accepted
       (handle_request Fixture.quiet Fixture.client
          (Fixture.request "subsystem" true (Fixture.text "sftp"))
          Fixture.accepted)) = [false].
Proof.
  rewrite (unknown_request_type_is_declined
             Fixture.quiet Fixture.client
             (Fixture.request "subsystem" true (Fixture.text "sftp"))
             Fixture.accepted eq_refl).
  by_computation.
Defined.

Lemma payload_shorter_than_four_bytes_panics_witness :
  handle_request Fixture.quiet Fixture.client
    (Fixture.request "env" true (Fixture.bytes [0; 0; 4]))
    Fixture.accepted
  = (Panicked IndexOutOfRange, Fixture.accepted).
Proof.
  apply (payload_shorter_than_four_bytes_panics
           Fixture.quiet Fixture.client true
           (slice_of (Fixture.bytes [0; 0; 4])) Fixture.accepted "env").
  - left. reflexivity.
  - simpl. lia.
Defined.

Lemma pty_req_wraps_witness :
  handle_request Fixture.quiet Fixture.client
    (Fixture.request "pty-req" true
       (Fixture.bytes [0; 0; 0; 253] ++ repeat "a"%byte 253))
    Fixture.accepted
  = (Panicked SliceBoundsOutOfRange, Fixture.accepted).
Proof.
  apply (pty_req_wraps Fixture.quiet Fixture.client true
           (slice_of (Fixture.bytes [0; 0; 0; 253] ++ repeat "a"%byte 253))
           Fixture.accepted Scenario.record (byte_of_Z 253)).
  - by_computation.
  - vm_compute. discriminate.
  - by_computation.
Defined.

Lemma env_value_wraps_witness :
  handle_request Fixture.quiet Fixture.client
    (Fixture.request "env" true
       (Fixture.bytes [0; 0; 0] ++ byte_of_Z 4 :: Fixture.text "PATH" ++
        Fixture.bytes [0; 0; 0] ++ byte_of_Z 250 :: repeat "b"%byte 250 ++ []))
    Fixture.accepted
  = (Panicked SliceBoundsOutOfRange, Fixture.accepted).
Proof.
  apply (env_value_wraps Fixture.quiet Fixture.client true _
           Fixture.accepted (Fixture.bytes [0; 0; 0]) (Fixture.text "PATH")
           (Fixture.bytes [0; 0; 0]) (repeat "b"%byte 250) []
           (byte_of_Z 4) (byte_of_Z 250)).
  - apply slice_of_wf.
  - by_computation.
  - reflexivity.
  - reflexivity.
  - reflexivity.
  - by_computation.
  - simpl. lia.
Defined.

Lemma env_request_stores_pair_but_replies_false_witness :
  exists st' : State,
    handle_request Fixture.quiet Fixture.client
      (Fixture.request "env" true
         (Fixture.bytes [0; 0; 0] ++ byte_of_Z 4 :: Fixture.text "LANG" ++
          Fixture.bytes [0; 0; 0] ++ byte_of_Z 1 :: Fixture.text "C" ++ []))
      Fixture.accepted = (Ok tt, st') /\
    (ClientConfig.Env <$> heap st' !! 1%nat) = Some {[ "LANG" := "C" ]} /\
    replies (skipn (length (trace Fixture.accepted)) (trace st')) = [false].
Proof.
  destruct (env_request_stores_pair_but_replies_false
              Fixture.quiet Fixture.client true
              (slice_of
                 (Fixture.bytes [0; 0; 0] ++ byte_of_Z 4 ::
                  Fixture.text "LANG" ++ Fixture.bytes [0; 0; 0] ++
                  byte_of_Z 1 :: Fixture.text "C" ++ []))
              Fixture.accepted Scenario.record
              (Fixture.bytes [0; 0; 0]) (Fixture.text "LANG")
              (Fixture.bytes [0; 0; 0]) (Fixture.text "C") []
              (byte_of_Z 4) (byte_of_Z 1)
              (slice_of_wf _) eq_refl eq_refl eq_refl
              eq_refl eq_refl ltac:(simpl; lia) ltac:(by_computation))
    as (st' & evs & Hrun & Hheap & _ & _ & Htr & Hrep).
  exists st'. split; [exact Hrun|]. split.
  - rewrite Hheap. change (Config Fixture.client) with 1%nat.
    rewrite lookup_insert_eq. by_computation.
  - rewrite Htr, drop_app_length. exact Hrep.
Defined.

Lemma env_last_write_wins_witness :
  exists st' : State,
    serve Fixture.quiet Fixture.client
      [ Fixture.request "env" true
          (Fixture.bytes [0; 0; 0] ++ byte_of_Z 4 :: Fixture.text "LANG" ++
           Fixture.bytes [0; 0; 0] ++ byte_of_Z 1 :: Fixture.text "C" ++ []);
        Fixture.request "env" false
          (Fixture.bytes [0; 0; 0] ++ byte_of_Z 4 :: Fixture.text "LANG" ++
           Fixture.bytes [0; 0; 0] ++ byte_of_Z 2 :: Fixture.text "fr" ++ [])
      ] Fixture.accepted = (Ok tt, st') /\
    (ClientConfig.Env <$> heap st' !! 1%nat) = Some {[ "LANG" := "fr" ]}.
Proof.
  destruct (env_last_write_wins
              Fixture.quiet Fixture.client true false
              (slice_of
                 (Fixture.bytes [0; 0; 0] ++ byte_of_Z 4 ::
                  Fixture.text "LANG" ++ Fixture.bytes [0; 0; 0] ++
                  byte_of_Z 1 :: Fixture.text "C" ++ []))
              (slice_of
                 (Fixture.bytes [0; 0; 0] ++ byte_of_Z 4 ::
                  Fixture.text "LANG" ++ Fixture.bytes [0; 0; 0] ++
                  byte_of_Z 2 :: Fixture.text "fr" ++ []))
              Fixture.accepted Scenario.record
              (Fixture.bytes [0; 0; 0]) (Fixture.bytes [0; 0; 0])
              (Fixture.text "LANG")
              (Fixture.bytes [0; 0; 0]) (Fixture.bytes [0; 0; 0])
              (Fixture.text "C") (Fixture.text "fr") [] []
              (byte_of_Z 4) (byte_of_Z 1) (byte_of_Z 2)
              (slice_of_wf _)
              (slice_of_wf _)
              eq_refl eq_refl eq_refl eq_refl eq_refl eq_refl
              eq_refl eq_refl eq_refl
              ltac:(simpl; lia) ltac:(simpl; lia) ltac:(by_computation))
    as (st' & Hrun & Hheap).
  exists st'. split; [exact Hrun|].
  change (Config Fixture.client) with 1%nat in Hheap. rewrite Hheap.
  by_computation.
Defined.



Lemma later_connection_gets_the_registered_record_witness :
  exists (c : Client) (st' : State) (cfg' : ClientConfig.t),
    NewClient Fixture.quiet Fixture.conn2 Fixture.accepted = (Ok c, st') /\
    heap st' !! Config c = Some cfg' /\
    ClientConfig.ImageName cfg' = "alpine/test".
Proof.
  destruct (later_connection_gets_the_registered_record
              Fixture.quiet Fixture.conn2 Fixture.accepted 1%nat
              Scenario.record "10.0.0.7" "50122" []
              ltac:(by_computation) ltac:(by_computation)
              ltac:(by_computation))
    as (c & st' & cfg' & Hrun & Hp & Hheap & Himage & _).
  exists c, st', cfg'. split; [exact Hrun|].
  split; [now rewrite Hp|]. rewrite Himage. reflexivity.
Defined.



Lemma channels_of_other_types_are_all_rejected_witness :
  exists st' : State,
    HandleChannels Fixture.quiet (Scenario.open_pty 7) Fixture.client
      [Scenario.forwarding_channel; Scenario.forwarding_channel]
      Fixture.accepted
    = (Ok (Fixture.client, [ChannelRejected; ChannelRejected], None), st').
Proof.
  destruct (channels_of_other_types_are_all_rejected
              Fixture.quiet (Scenario.open_pty 7)
              [Scenario.forwarding_channel; Scenario.forwarding_channel]
              Fixture.client Fixture.accepted)
    as (st' & evs & Hrun & _).
  - repeat constructor; vm_compute; discriminate.
  - exists st'. exact Hrun.
Defined.

Lemma channel_loop_stops_at_first_failed_accept_witness :
  fst (HandleChannels Fixture.quiet (Scenario.open_pty 7) Fixture.client
         [Scenario.forwarding_channel; Scenario.broken_channel;
          Scenario.session_channel [Fixture.shell]] Fixture.accepted)
  = Ok (Fixture.client, [ChannelRejected; AcceptFailed "EOF"], Some "EOF").
Proof.
  exact (f_equal fst
           (channel_loop_stops_at_first_failed_accept
              Fixture.quiet (Scenario.open_pty 7)
              [Scenario.forwarding_channel]
              [Scenario.session_channel [Fixture.shell]]
              Scenario.broken_channel "EOF"
              Fixture.client Fixture.client [ChannelRejected]
              Fixture.accepted
              (snd (HandleChannels Fixture.quiet (Scenario.open_pty 7)
                      Fixture.client [Scenario.forwarding_channel]
                      Fixture.accepted))
              ltac:(by_computation) eq_refl eq_refl)).
Defined.


Section TeardownWitnesses.

Import Teardown.

(** Names the state a schedule leads to and shows it reachable. *)
Ltac after_schedule sched :=
  let v := eval vm_compute in (run sched init) in
  match v with
  | Some ?s =>
      exists s;
      assert (Hreach : reachable s)
        by (apply (run_reachable sched init s reachable_init);
            vm_compute; reflexivity)
  end.

Lemma mutex_is_held_by_one_goroutine_at_most_witness :
  exists s : state,
    run [Complete WaitProcess true; Advance WaitProcess;
         Advance WaitProcess; Advance WaitProcess] init = Some s /\
    mutex s = Some WaitProcess.
Proof.
  after_schedule [Complete WaitProcess true; Advance WaitProcess;
                  Advance WaitProcess; Advance WaitProcess].
  split; [vm_compute; reflexivity|].
  match goal with |- mutex ?s = _ =>
    apply (mutex_is_held_by_one_goroutine_at_most
             s WaitProcess WaitProcess Hreach)
  end; reflexivity.
Defined.

Lemma goroutines_in_once_never_deadlock_witness :
  exists s : state,
    run [Complete CopyPtyToChannel false; Complete WaitProcess false;
         Advance CopyPtyToChannel; Advance WaitProcess;
         Advance WaitProcess] init = Some s /\
    advance CopyPtyToChannel s = None /\
    exists (t' : task) (s' : state), advance t' s = Some s'.
Proof.
  after_schedule [Complete CopyPtyToChannel false; Complete WaitProcess false;
                  Advance CopyPtyToChannel; Advance WaitProcess;
                  Advance WaitProcess].
  split; [vm_compute; reflexivity|]. split; [reflexivity|].
  match goal with |- exists t' s', advance t' ?s = _ =>
    apply (goroutines_in_once_never_deadlock s CopyPtyToChannel Hreach)
  end; discriminate.
Defined.

Lemma every_schedule_ends_within_24_moves_witness :
  (length race <= 24)%nat.
Proof.
  let v := eval vm_compute in (run race init) in
  match v with
  | Some ?s => apply (every_schedule_ends_within_24_moves race s)
  end.
  vm_compute. reflexivity.
Defined.

Lemma single_completion_tears_down_witness :
  exists s : state,
    run (Complete WaitProcess true :: repeat (Advance WaitProcess) 7) init
      = Some s /\
    teardown_events s = [ChannelClose; LogDisconnect] /\
    pcs s CopyPtyToChannel = Working.
Proof.
  destruct (single_completion_tears_down WaitProcess true)
    as (s & Hrun & Hlog & _ & Hothers).
  exists s. split; [exact Hrun|]. split; [exact Hlog|].
  apply Hothers. discriminate.
Defined.

End TeardownWitnesses.
